(** * crewai-langwatch-demo: the conversation adapter and the heuristic judges

    A shallow embedding of
      - [adapters/crew_adapter.py]   (class [CrewAIAdapter]) and
      - [scenarios/judges/custom_judges.py] (the three judge classes),
    followed by the properties the specification states about them.

    Conventions of the embedding.
      - A Python [str] is a [string]; its characters are the code points
        0..255 (Latin-1), so [lower], [isspace] follow Python's tables on
        that range.
      - A Python [float] is a binary64 [float] of the kernel: additions,
        subtractions and products round as CPython's do.
      - An exception is carried by its text [str(e)]; code that may raise
        returns a [result], and the adapter runs in a state-and-error monad
        whose state survives a raise, as a Python object's attributes do. *)

From Stdlib Require Import Floats.PrimFloat Numbers.Cyclic.Int63.PrimInt63.
From Stdlib Require Import Ascii String DecimalString ZArith QArith Lia.
From stdpp Require Import gmap strings list.

Set Warnings "-register-all".

Local Open Scope Z_scope.
Local Open Scope stdpp_scope.

(* ===================================================================== *)
(** ** Python built-ins used by the two modules *)
(* ===================================================================== *)

Module Py.

(** *** Characters *)

Definition code (c : ascii) : N := N_of_ascii c.

Definition between (lo hi n : N) : bool := (N.leb lo n && N.leb n hi)%bool.

(** [str.isspace] on one character: TAB..CR, FS..US, SPACE, NEL, NBSP. *)
Definition isspace (c : ascii) : bool :=
  let n := code c in
  (between 9 13 n || between 28 32 n || N.eqb n 133 || N.eqb n 160)%bool.

(** [str.lower] on one character: A..Z and the Latin-1 capitals but U+00D7. *)
Definition lower_char (c : ascii) : ascii :=
  let n := code c in
  if (between 65 90 n || (between 192 222 n && negb (N.eqb n 215)))%bool
  then ascii_of_N (n + 32) else c.

Definition newline : ascii := "010"%char.

(** *** Strings *)

Fixpoint lower (s : string) : string :=
  match s with
  | EmptyString => EmptyString
  | String c s' => String (lower_char c) (lower s')
  end.

(** [s.startswith(p)] *)
Fixpoint startswith (s p : string) {struct p} : bool :=
  match p with
  | EmptyString => true
  | String a p' =>
      match s with
      | EmptyString => false
      | String b s' => (Ascii.eqb a b && startswith s' p')%bool
      end
  end.

(** [sub in s] *)
Fixpoint contains (s sub : string) : bool :=
  (startswith s sub ||
   match s with
   | EmptyString => false
   | String _ s' => contains s' sub
   end)%bool.

(** [s.lstrip()], [s.rstrip()], [s.strip()] *)
Fixpoint lstrip (s : string) : string :=
  match s with
  | EmptyString => EmptyString
  | String c s' => if isspace c then lstrip s' else s
  end.

Fixpoint rstrip (s : string) : string :=
  match s with
  | EmptyString => EmptyString
  | String c s' =>
      match rstrip s' with
      | EmptyString => if isspace c then EmptyString else String c EmptyString
      | r => String c r
      end
  end.

Definition strip (s : string) : string := rstrip (lstrip s).

(** Prepend a character to the first part of a list of parts. *)
Definition cons_first (c : ascii) (parts : list string) : list string :=
  match parts with
  | [] => [String c EmptyString]
  | w :: ws => String c w :: ws
  end.

(** [s.split(sep)] for a non-empty [sep]: [skip] counts the characters of a
    separator that has been recognised and is still being passed over. *)
Fixpoint split_go (sep : string) (skip : nat) (s : string) : list string :=
  match s with
  | EmptyString => [EmptyString]
  | String c s' =>
      match skip with
      | S k => split_go sep k s'
      | O =>
          if startswith s sep
          then EmptyString :: split_go sep (String.length sep - 1) s'
          else cons_first c (split_go sep 0 s')
      end
  end.

Definition split (s sep : string) : list string := split_go sep 0 s.

(** [s.split()]: maximal runs of non-whitespace characters. *)
Fixpoint split_ws (s : string) : list string :=
  match s with
  | EmptyString => []
  | String c s' =>
      if isspace c then split_ws s'
      else match s' with
           | EmptyString => [String c EmptyString]
           | String d _ =>
               if isspace d then String c EmptyString :: split_ws s'
               else cons_first c (split_ws s')
           end
  end.

(** [s.count(sub)] for a non-empty [sub]: occurrences that do not overlap. *)
Fixpoint count_go (sub : string) (skip : nat) (s : string) : nat :=
  match s with
  | EmptyString => 0%nat
  | String _ s' =>
      match skip with
      | S k => count_go sub k s'
      | O =>
          if startswith s sub
          then S (count_go sub (String.length sub - 1) s')
          else count_go sub 0 s'
      end
  end.

Definition count (s sub : string) : nat := count_go sub 0 s.

(** [sep.join(parts)] *)
Fixpoint join (sep : string) (parts : list string) : string :=
  match parts with
  | [] => EmptyString
  | x :: rest =>
      match rest with
      | [] => x
      | _ :: _ => x +:+ sep +:+ join sep rest
      end
  end.

(** *** Floats *)

(** [min(a, b)] and [max(a, b)]: the first argument unless the second one
    is strictly smaller (larger). *)
Definition min (a b : float) : float := if PrimFloat.ltb b a then b else a.
Definition max (a b : float) : float := if PrimFloat.ltb a b then b else a.

Fixpoint int_of_nat (n : nat) : int :=
  match n with
  | O => 0%uint63
  | S k => PrimInt63.add (int_of_nat k) 1%uint63
  end.

(** [float(n)] for a small non-negative [int]. *)
Definition float_of_nat (n : nat) : float := PrimFloat.of_uint63 (int_of_nat n).

(** *** Exceptions *)

(** The outcome of a call: a value, a raised [Exception] with its text, or
    a raised [BaseException] that is not an [Exception] ([SystemExit],
    [KeyboardInterrupt], [asyncio.CancelledError]) with its text. An
    [except Exception] clause handles the first kind only. *)
Inductive result (A : Type) : Type :=
  | Ok (a : A)
  | Raise (e : string)
  | RaiseBase (e : string).
Arguments Ok {A} a.
Arguments Raise {A} e.
Arguments RaiseBase {A} e.

(** *** [json.dumps] *)

Inductive json : Type :=
  | JNull
  | JBool (b : bool)
  | JInt (z : Z)
  | JStr (s : string)
  | JList (items : list json)
  | JObj (fields : list (string * json)).

Definition dquote : ascii := "034"%char.

Definition hex_digit (n : N) : ascii :=
  if N.ltb n 10 then ascii_of_N (48 + n) else ascii_of_N (87 + n).

(** One character inside a JSON string, with [ensure_ascii=True]. *)
Definition escape_char (c : ascii) : string :=
  let n := code c in
  if N.eqb n 34 then String "\" (String dquote EmptyString)
  else if N.eqb n 92 then "\\"
  else if N.eqb n 10 then "\n"
  else if N.eqb n 13 then "\r"
  else if N.eqb n 9 then "\t"
  else if N.eqb n 8 then "\b"
  else if N.eqb n 12 then "\f"
  else if between 32 126 n then String c EmptyString
  else "\u00" +:+ String (hex_digit (N.div n 16)) (String (hex_digit (N.modulo n 16)) EmptyString).

Fixpoint escape (s : string) : string :=
  match s with
  | EmptyString => EmptyString
  | String c s' => escape_char c +:+ escape s'
  end.

Definition quote (s : string) : string :=
  String dquote (escape s +:+ String dquote EmptyString).

Definition str_of_int (z : Z) : string := NilEmpty.string_of_int (Z.to_int z).

Fixpoint dumps (j : json) : string :=
  match j with
  | JNull => "null"
  | JBool b => if b then "true" else "false"
  | JInt z => str_of_int z
  | JStr s => quote s
  | JList items =>
      "[" +:+
      (fix items_go (l : list json) : string :=
         match l with
         | [] => EmptyString
         | x :: rest =>
             match rest with
             | [] => dumps x
             | _ :: _ => dumps x +:+ ", " +:+ items_go rest
             end
         end) items +:+ "]"
  | JObj fields =>
      "{" +:+
      (fix fields_go (l : list (string * json)) : string :=
         match l with
         | [] => EmptyString
         | (k, v) :: rest =>
             match rest with
             | [] => quote k +:+ ": " +:+ dumps v
             | _ :: _ => quote k +:+ ": " +:+ dumps v +:+ ", " +:+ fields_go rest
             end
         end) fields +:+ "}"
  end.

End Py.

(** A chat message: a dict whose ['role'] and ['content'] keys may be absent.
    A content that is not a [str] is kept with its [str()] rendering. *)
Inductive pyobj : Type :=
  | PyStr (s : string)
  | PyOther (rendering : string).

Record message : Type := Message {
  role : option string;
  content : option pyobj
}.

(** [msg.get('role', 'unknown')] *)
Definition get_role (msg : message) : string := default "unknown" (role msg).

(** [f"{msg.get('content', '')}"] *)
Definition format_content (msg : message) : string :=
  match content msg with
  | None => ""
  | Some (PyStr s) => s
  | Some (PyOther rendering) => rendering
  end.

Definition user_msg (text : string) : message := Message (Some "user") (Some (PyStr text)).
Definition assistant_msg (text : string) : message := Message (Some "assistant") (Some (PyStr text)).

(* ===================================================================== *)
(** ** scenarios/judges/custom_judges.py *)
(* ===================================================================== *)

Module Judges.

(** The loop shared by the keyword scorers:
    [for indicator in indicators:
       if indicator.lower() in conversation.lower(): score = update(score)] *)
Fixpoint for_each_indicator (indicators : list string) (conversation : string)
    (update : float -> float) (score : float) : float :=
  match indicators with
  | [] => score
  | indicator :: rest =>
      for_each_indicator rest conversation update
        (if Py.contains (Py.lower conversation) (Py.lower indicator)
         then update score else score)
  end.

(** Decimal constants that are not binary64 values, as CPython reads them. *)
Definition f0_2 : float := 0x1.999999999999ap-3%float.
Definition f0_3 : float := 0x1.3333333333333p-2%float.
Definition f0_4 : float := 0x1.999999999999ap-2%float.

Module CustomerServiceQualityJudge.

Definition _extract_conversation (messages : list message) : string :=
  Py.join (String Py.newline (String Py.newline ""))
    (flat_map (fun msg =>
       if String.eqb (get_role msg) "user" then ["CUSTOMER: " +:+ format_content msg]
       else if String.eqb (get_role msg) "assistant" then ["AGENT: " +:+ format_content msg]
       else []) messages).

Definition empathy_indicators : list string :=
  ["understand"; "sorry"; "apologize"; "frustrating"; "difficult";
   "appreciate"; "thank you"; "I can see"; "I realize"].

Definition _evaluate_empathy (conversation : string) : float :=
  let score := for_each_indicator empathy_indicators conversation
                 (fun score => score + 0.5)%float 5%float in
  Py.min 10%float score.

Definition professional_indicators : list string :=
  ["please"; "thank you"; "I'll help"; "let me"; "I can assist"].
Definition unprofessional_indicators : list string :=
  ["whatever"; "I don't know"; "not my problem"; "can't help"].

Definition _evaluate_professionalism (conversation : string) : float :=
  let score := for_each_indicator professional_indicators conversation
                 (fun score => score + f0_3)%float 7%float in
  let score := for_each_indicator unprofessional_indicators conversation
                 (fun score => score - 1)%float score in
  Py.max 1%float (Py.min 10%float score).

(** The look-ahead [(?=CUSTOMER:|$)]: the customer marker, the end of the
    text, or the last newline of the text. *)
Definition span_stop (rest : string) : bool :=
  (Py.startswith rest "CUSTOMER:" || String.eqb rest "" ||
   String.eqb rest (String Py.newline ""))%bool.

(** The lazy [.+?] once its first character is taken: the shortest
    continuation after which the look-ahead holds. *)
Fixpoint span_more (rest : string) : string :=
  if span_stop rest then EmptyString
  else match rest with
       | EmptyString => EmptyString
       | String c rest' => String c (span_more rest')
       end.

(** Group 1 of a match of [AGENT: (.+?)(?=CUSTOMER:|$)] that starts here, with
    [re.DOTALL]; [None] when the pattern does not match at this position. *)
Definition agent_span (s : string) : option string :=
  if Py.startswith s "AGENT: " then
    match String.substring 7 (String.length s - 7) s with
    | EmptyString => None
    | String c rest => Some (String c (span_more rest))
    end
  else None.

(** [re.findall(r'AGENT: (.+?)(?=CUSTOMER:|$)', s, re.DOTALL)]: matches from
    left to right, each one resuming where the previous one ended. *)
Fixpoint findall_go (skip : nat) (s : string) : list string :=
  match s with
  | EmptyString => []
  | String _ s' =>
      match skip with
      | S k => findall_go k s'
      | O =>
          match agent_span s with
          | Some span => span :: findall_go (6 + String.length span) s'
          | None => findall_go 0 s'
          end
      end
  end.

Definition findall_agent_spans (conversation : string) : list string :=
  findall_go 0 conversation.

(** [sum(len(response.split()) for response in agent_responses)] *)
Definition total_words (agent_responses : list string) : nat :=
  foldr (fun response acc => (length (Py.split_ws response) + acc)%nat) 0%nat agent_responses.

(** [sum(...) / len(agent_responses)], kept as the exact quotient (CPython
    rounds it to binary64, which is the same number when it is an integer). *)
Definition avg_length (agent_responses : list string) : Q :=
  Qmake (Z.of_nat (total_words agent_responses))
        (Pos.of_nat (length agent_responses)).

Definition _evaluate_communication (conversation : string) : float :=
  let agent_responses := findall_agent_spans conversation in
  match agent_responses with
  | [] => 5%float
  | _ :: _ =>
      let avg := avg_length agent_responses in
      if (Qle_bool 10 avg && Qle_bool avg 50)%bool then 8%float
      else if ((Qle_bool 5 avg && negb (Qle_bool 10 avg))
               || (negb (Qle_bool avg 50) && Qle_bool avg 100))%bool then 6%float
      else 4%float
  end.

Definition listening_indicators : list string :=
  ["you mentioned"; "you said"; "I understand that"; "to clarify";
   "let me make sure"; "if I understand correctly"].

Definition _evaluate_listening (conversation : string) : float :=
  let score := for_each_indicator listening_indicators conversation
                 (fun score => score + 0.5)%float 6%float in
  Py.min 10%float score.

Definition problem_solving_indicators : list string :=
  ["let me check"; "I'll investigate"; "here's what we can do";
   "solution"; "resolve"; "fix"; "help you with"].

Definition _evaluate_problem_solving (conversation : string) : float :=
  let score := for_each_indicator problem_solving_indicators conversation
                 (fun score => score + f0_4)%float 5%float in
  Py.min 10%float score.

Definition customer_focus_indicators : list string :=
  ["for you"; "your needs"; "your experience"; "your satisfaction";
   "what works best"; "your preference"].

Definition _evaluate_customer_focus (conversation : string) : float :=
  let score := for_each_indicator customer_focus_indicators conversation
                 (fun score => score + f0_3)%float 6%float in
  Py.min 10%float score.

(** The local variable [overall_score] of [_generate_quality_evaluation],
    before it is rounded for the record. *)
Definition overall_score (conversation : string) : float :=
  ((_evaluate_empathy conversation + _evaluate_professionalism conversation
    + _evaluate_communication conversation) / 3)%float.

(** [f"The conversation shows {'good' if len(conversation) > 200 else
    'limited'} engagement ..."] *)
Definition _generate_detailed_analysis (conversation : string) : string :=
  "The conversation shows "
  +:+ (if (200 <? String.length conversation)%nat then "good" else "limited")
  +:+ " engagement between agent and customer. The agent demonstrates professional communication and attempts to address customer concerns systematically.".

(** [examples.append(text)] under a condition *)
Definition append_if (condition : bool) (text : string) (items : list string) : list string :=
  if condition then items ++ [text] else items.

(** [items or [fallback]] *)
Definition or_default (items : list string) (fallback : string) : list string :=
  match items with
  | [] => [fallback]
  | _ :: _ => items
  end.

Definition _extract_positive_examples (conversation : string) : list string :=
  let examples := [] in
  let examples := append_if (Py.contains conversation "I understand")
                    "Agent showed empathy with 'I understand'" examples in
  let examples := append_if (Py.contains conversation "let me help")
                    "Agent offered proactive assistance" examples in
  let examples := append_if (Py.contains conversation "thank you")
                    "Agent maintained polite communication" examples in
  or_default examples "Agent maintained professional tone throughout".

(** [len(re.findall(r'AGENT:', conversation))]: the matches of a literal
    pattern are its occurrences from left to right without overlap. *)
Definition count_agent_markers (conversation : string) : nat :=
  Py.count conversation "AGENT:".

Definition _identify_improvements (conversation : string) : list string :=
  let improvements := [] in
  let improvements := append_if (negb (Py.contains (Py.lower conversation) "sorry"))
                        "Could show more empathy and acknowledgment of customer concerns"
                        improvements in
  let improvements := append_if (count_agent_markers conversation <? 3)%nat
                        "Could engage more actively in problem-solving" improvements in
  or_default improvements "Continue maintaining current service quality".

Definition _generate_recommendation (score : float) : string :=
  if PrimFloat.leb 8 score then
    "Excellent customer service quality. Continue current approach."
  else if PrimFloat.leb 6 score then
    "Good customer service with room for improvement in empathy and communication."
  else
    "Customer service quality needs significant improvement. Focus on empathy, professionalism, and problem-solving.".

End CustomerServiceQualityJudge.

Module TechnicalAccuracyJudge.

Definition technical_terms : list string :=
  ["API"; "authentication"; "error"; "code"; "integration"; "configuration"].

Definition _evaluate_technical_accuracy (conversation : string) : float :=
  let score := for_each_indicator technical_terms conversation
                 (fun score => score + f0_2)%float 7%float in
  let score :=
    if (Py.contains (Py.lower conversation) "restart your computer"
        && Py.contains conversation "API")%bool
    then (score - 2)%float else score in
  Py.max 1%float (Py.min 10%float score).

Definition solution_indicators : list string :=
  ["step by step"; "first"; "then"; "next"; "finally";
   "check"; "verify"; "test"; "try"].

Definition _evaluate_solution_quality (conversation : string) : float :=
  let score := for_each_indicator solution_indicators conversation
                 (fun score => score + f0_3)%float 6%float in
  Py.min 10%float score.

Definition clarity_indicators : list string :=
  ["here's how"; "follow these steps"; "you need to";
   "make sure"; "ensure that"; "double-check"].

Definition _evaluate_guidance_clarity (conversation : string) : float :=
  let score := for_each_indicator clarity_indicators conversation
                 (fun score => score + f0_4)%float 6%float in
  Py.min 10%float score.

(** ["\n".join(f"{role}: {content}" for each message)] *)
Definition _extract_conversation (messages : list message) : string :=
  Py.join (String Py.newline "")
    (map (fun msg => get_role msg +:+ ": " +:+ format_content msg) messages).

(** The value under ["overall_technical_score"] in [call]. *)
Definition overall_technical_score (conversation : string) : float :=
  ((_evaluate_technical_accuracy conversation + _evaluate_solution_quality conversation
    + _evaluate_guidance_clarity conversation) / 3)%float.

Definition _identify_technical_issues (conversation : string) : list string :=
  let issues := [] in
  let issues :=
    CustomerServiceQualityJudge.append_if
      (Py.contains conversation "API" && negb (Py.contains (Py.lower conversation) "key"))
      "API discussion without mentioning authentication keys" issues in
  let issues :=
    CustomerServiceQualityJudge.append_if
      (Py.contains (Py.lower conversation) "error"
       && negb (Py.contains (Py.lower conversation) "code"))
      "Error discussion without requesting error codes" issues in
  issues.

Definition _evaluate_solution_completeness (conversation : string) : string :=
  if (Py.contains (Py.lower conversation) "step"
      && (2 <? length (Py.split conversation "step"))%nat)%bool
  then "Complete - Multi-step solution provided"
  else if Py.contains (Py.lower conversation) "try"
  then "Partial - Basic troubleshooting suggested"
  else "Incomplete - No clear solution provided".

Definition _generate_technical_recommendation (conversation : string) : string :=
  if Py.contains conversation "API" then
    "Good technical engagement. Consider providing more specific API documentation references."
  else "Maintain technical accuracy and provide step-by-step solutions.".

End TechnicalAccuracyJudge.

Module EscalationAppropriatenessJudge.

(** ["\n".join(f"{role}: {content}" for each message)] *)
Definition _extract_conversation (messages : list message) : string :=
  Py.join (String Py.newline "")
    (map (fun msg => get_role msg +:+ ": " +:+ format_content msg) messages).

Record need_assessment : Type := {
  escalation_warranted : bool;
  triggers_identified : list string;
  severity_level : string
}.

Definition escalation_triggers : list string :=
  ["manager"; "supervisor"; "escalate"; "higher level";
   "weeks"; "months"; "frustrated"; "angry"; "unacceptable"].

Definition _assess_escalation_need (conversation : string) : need_assessment :=
  let triggers_found :=
    List.filter (fun trigger => Py.contains (Py.lower conversation) trigger)
      escalation_triggers in
  {| escalation_warranted := (2 <=? length triggers_found)%nat;
     triggers_identified := triggers_found;
     severity_level :=
       if (3 <=? length triggers_found)%nat then "high"
       else if (1 <=? length triggers_found)%nat then "medium" else "low" |}.

Definition _evaluate_escalation_timing (conversation : string) : string :=
  if Py.contains (Py.lower conversation) "manager" then
    let parts := Py.split conversation "manager" in
    if (1 <? length parts)%nat then
      let pre_escalation := List.hd "" parts in
      let interaction_count := Py.count pre_escalation "AGENT:" in
      if (interaction_count <=? 2)%nat then "Too early - should attempt resolution first"
      else if (interaction_count <=? 5)%nat then "Appropriate timing"
      else "Too late - should have escalated sooner"
    else "No escalation occurred"
  else "No escalation occurred".

Record process_elements : Type := {
  explanation_provided : bool;
  expectations_set : bool;
  information_gathered : bool;
  professional_handoff : bool
}.

Definition _evaluate_escalation_process (conversation : string) : process_elements :=
  let has := Py.contains (Py.lower conversation) in
  {| explanation_provided := (has "escalate" || has "manager")%bool;
     expectations_set := (has "will contact" || has "within")%bool;
     information_gathered := (has "account" || has "details")%bool;
     professional_handoff := (has "transfer" || has "connect")%bool |}.

(** [process.values()] *)
Definition process_values (process : process_elements) : list bool :=
  [explanation_provided process; expectations_set process;
   information_gathered process; professional_handoff process].

Definition _calculate_escalation_score (conversation : string) : float :=
  let need := _assess_escalation_need conversation in
  let timing := _evaluate_escalation_timing conversation in
  let process := _evaluate_escalation_process conversation in
  let has_manager := Py.contains (Py.lower conversation) "manager" in
  let score := 5%float in
  let score :=
    if (escalation_warranted need && has_manager)%bool then (score + 2)%float
    else if (negb (escalation_warranted need) && negb has_manager)%bool
         then (score + 1)%float else score in
  let score :=
    if String.eqb timing "Appropriate timing" then (score + 1)%float
    else if Py.startswith timing "Too" then (score - 1)%float else score in
  let process_score := length (List.filter (fun element => element) (process_values process)) in
  let score := (score + Py.float_of_nat process_score * 0.5)%float in
  Py.max 1%float (Py.min 10%float score).

(** [any(indicator in conversation.lower() for indicator in indicators)] *)
Definition any_in (conversation : string) (indicators : list string) : bool :=
  existsb (fun indicator => Py.contains (Py.lower conversation) indicator) indicators.

Definition _evaluate_escalation_satisfaction (conversation : string) : string :=
  if any_in conversation ["thank you"; "appreciate"; "helpful"] then
    "Satisfied with escalation process"
  else if any_in conversation ["still not"; "waste of time"; "ridiculous"] then
    "Dissatisfied with escalation process"
  else "Neutral - no clear satisfaction indicators".

Definition _generate_escalation_recommendations (conversation : string) : list string :=
  let recommendations := [] in
  let need := _assess_escalation_need conversation in
  let has_manager := Py.contains (Py.lower conversation) "manager" in
  let recommendations :=
    CustomerServiceQualityJudge.append_if
      (escalation_warranted need && negb has_manager)
      "Should have escalated to manager given customer frustration level"
      recommendations in
  let recommendations :=
    CustomerServiceQualityJudge.append_if
      (has_manager && negb (any_in conversation ["will contact"; "within"]))
      "Should set clear expectations for escalation timeline" recommendations in
  match recommendations with
  | [] => ["Escalation handling was appropriate for this situation"]
  | _ :: _ => recommendations
  end.

End EscalationAppropriatenessJudge.

End Judges.

(* ===================================================================== *)
(** ** adapters/crew_adapter.py *)
(* ===================================================================== *)

Module Adapter.

Import Py.

(** *** The pure helpers of [CrewAIAdapter] *)

(** The inner loop of [_extract_customer_id]:
    [for i, word in enumerate(words):
       if 'cust' in word and i + 1 < len(words): return words[i + 1]] *)
Fixpoint word_after_cust (words : list string) : option string :=
  match words with
  | [] => None
  | word :: rest =>
      if (contains word "cust" && negb (Nat.eqb (length rest) 0))%bool
      then List.head rest
      else word_after_cust rest
  end.

Fixpoint _extract_customer_id (messages : list message) : string :=
  match messages with
  | [] => "CUST001"
  | msg :: rest =>
      match content msg with
      | Some (PyStr text) =>
          let content := lower text in
          if (contains content "customer id" || contains content "cust")%bool then
            match word_after_cust (split_ws content) with
            | Some found => found
            | None => _extract_customer_id rest
            end
          else _extract_customer_id rest
      | _ => _extract_customer_id rest
      end
  end.

Definition _format_conversation_context (messages : list message) : string :=
  join (String newline "")
    (flat_map (fun msg =>
       if String.eqb (get_role msg) "user" then ["Customer: " +:+ format_content msg]
       else if String.eqb (get_role msg) "assistant" then ["Agent: " +:+ format_content msg]
       else if String.eqb (get_role msg) "system" then ["System: " +:+ format_content msg]
       else []) messages).

Definition skip_phrases : list string :=
  ["agent:"; "task:"; "crew:"; "executing"; "delegating"; "final answer:"].

(** [any(skip_phrase in line.lower() for skip_phrase in [...])] *)
Definition is_log_line (line : string) : bool :=
  existsb (fun skip_phrase => contains (lower line) skip_phrase) skip_phrases.

(** [line.strip() and not line.startswith('[') and not line.startswith('##')] *)
Definition is_response_line (line : string) : bool :=
  (negb (String.eqb (strip line) "") && negb (startswith line "[")
   && negb (startswith line "##"))%bool.

(** The loop of [_format_crew_response] that fills [cleaned_lines]. *)
Fixpoint clean_lines (lines : list string) : list string :=
  match lines with
  | [] => []
  | line :: rest =>
      if is_log_line line then clean_lines rest
      else if is_response_line line then strip line :: clean_lines rest
      else clean_lines rest
  end.

Definition _format_crew_response (response : string) : string :=
  let lines := split response (String newline "") in
  let cleaned_lines := clean_lines lines in
  match cleaned_lines with
  | [] => response
  | _ :: _ => join (String newline "") cleaned_lines
  end.

(** The text returned by the [except Exception as e] clause of [call]. *)
Definition error_msg (e : string) : string := "Error in CrewAI adapter: " +:+ e.

Definition apology (e : string) : string :=
  "I apologize, but I encountered an error while processing your request. Please try again or contact support if the issue persists. Error: "
  +:+ error_msg e.

(** *** The harness input *)

(** [scenario.AgentInput]. [last_new_user_message_str] is a method of the
    harness; its outcome on this input is carried with the input. *)
Record AgentInput : Type := {
  messages : list message;
  new_messages : list message;
  thread_id : string;
  judgment_request : bool;
  last_new_user_message_str : result string
}.

Section CrewAIAdapter.

(** The code outside the adapter: the crew class and its two methods. Each
    may raise and may change a state of its own, the [World]. *)
Context {World Crew : Type}.

Record externals : Type := {
  (** the constructor call [self.crew_class(...)] with the stored keyword arguments *)
  crew_class : World -> result Crew * World;
  (** [crew.handle_inquiry(user_message, customer_id)] *)
  handle_inquiry : Crew -> string -> string -> World -> result string * World;
  (** [crew.get_crew_info()], as the JSON value [json.dumps] makes of it *)
  get_crew_info : Crew -> World -> result json * World
}.

Context (ext : externals).

(** One entry of [self.conversation_history]: the dict with the keys
    ['crew'], ['messages'] and ['context']. *)
Record thread_context : Type := {
  ctx_crew : Crew;
  ctx_messages : list message;
  ctx_context : gmap string string
}.

(** What a call can read and change: the adapter's [conversation_history],
    the world of the external code, what was printed, and the log of the
    invocations of [handle_inquiry] (message, customer id), oldest first. *)
Record state : Type := {
  conversation_history : gmap string thread_context;
  world : World;
  console : list string;
  responder_calls : list (string * string)
}.

Definition set_history (h : gmap string thread_context) (st : state) : state :=
  {| conversation_history := h; world := world st;
     console := console st; responder_calls := responder_calls st |}.

Definition set_world (w : World) (st : state) : state :=
  {| conversation_history := conversation_history st; world := w;
     console := console st; responder_calls := responder_calls st |}.

(** *** The monad of the adapter's methods *)

Definition M (A : Type) : Type := state -> result A * state.

Definition ret {A} (a : A) : M A := fun st => (Ok a, st).

Definition raise {A} (e : string) : M A := fun st => (Raise e, st).

Definition bind {A B} (m : M A) (k : A -> M B) : M B :=
  fun st =>
    match m st with
    | (Ok a, st') => k a st'
    | (Raise e, st') => (Raise e, st')
    | (RaiseBase e, st') => (RaiseBase e, st')
    end.

(** [try: body  except Exception as e: handler(e)]: what is raised and is
    not an [Exception] passes through. *)
Definition try_except {A} (body : M A) (handler : string -> M A) : M A :=
  fun st =>
    match body st with
    | (Ok a, st') => (Ok a, st')
    | (Raise e, st') => handler e st'
    | (RaiseBase e, st') => (RaiseBase e, st')
    end.

Definition lift {A} (r : result A) : M A := fun st => (r, st).

(** A call into the external code. *)
Definition external {A} (f : World -> result A * World) : M A :=
  fun st => let (r, w) := f (world st) in (r, set_world w st).

Definition print (line : string) : M unit :=
  fun st => (Ok tt,
    {| conversation_history := conversation_history st; world := world st;
       console := console st ++ [line]; responder_calls := responder_calls st |}).

(** [self.conversation_history[thread_id]]; a missing key raises [KeyError]. *)
Definition lookup_thread (thread_id : string) : M thread_context :=
  fun st =>
    match conversation_history st !! thread_id with
    | Some ctx => (Ok ctx, st)
    | None => (Raise ("'" +:+ thread_id +:+ "'"), st)
    end.

(** [thread_id in self.conversation_history] *)
Definition has_thread (thread_id : string) : M bool :=
  fun st => (Ok (bool_decide (is_Some (conversation_history st !! thread_id))), st).

(** [self.conversation_history[thread_id] = ctx] *)
Definition store_thread (thread_id : string) (ctx : thread_context) : M unit :=
  fun st => (Ok tt, set_history (<[thread_id := ctx]> (conversation_history st)) st).

(** A mutation of the dict stored under [thread_id], seen by every holder of
    that dict. *)
Definition update_thread (thread_id : string) (f : thread_context -> thread_context) : M unit :=
  fun st => (Ok tt, set_history (alter f thread_id (conversation_history st)) st).

Definition extend_messages (new : list message) (ctx : thread_context) : thread_context :=
  {| ctx_crew := ctx_crew ctx; ctx_messages := ctx_messages ctx ++ new;
     ctx_context := ctx_context ctx |}.

Definition set_context (key value : string) (ctx : thread_context) : thread_context :=
  {| ctx_crew := ctx_crew ctx; ctx_messages := ctx_messages ctx;
     ctx_context := <[key := value]> (ctx_context ctx) |}.

(** [await loop.run_in_executor(None, crew.handle_inquiry, user_message,
    customer_id)]: the one place where the responder is invoked. *)
Definition run_in_executor (crew : Crew) (user_message customer_id : string) : M string :=
  fun st =>
    let st1 :=
      {| conversation_history := conversation_history st; world := world st;
         console := console st;
         responder_calls := responder_calls st ++ [(user_message, customer_id)] |} in
    external (handle_inquiry ext crew user_message customer_id) st1.

End CrewAIAdapter.

Arguments externals : clear implicits.
Arguments thread_context : clear implicits.
Arguments state : clear implicits.
Arguments M : clear implicits.

Declare Scope adapter_scope.
Delimit Scope adapter_scope with adapter.
Notation "x <- m ;; k" := (bind m (fun x => k))
  (at level 100, m at next level, right associativity) : adapter_scope.
Notation "m ;; k" := (bind m (fun _ => k))
  (at level 100, right associativity) : adapter_scope.

Section CrewAIAdapterMethods.

Context {World Crew : Type} (ext : externals World Crew).
Local Open Scope adapter_scope.

Definition _get_or_create_crew (thread_id : string) : M World Crew Crew :=
  (known <- has_thread thread_id ;;
   (if negb known then
      crew <- external (crew_class ext) ;;
      store_thread thread_id
        {| ctx_crew := crew; ctx_messages := []; ctx_context := ∅ |}
    else ret tt) ;;
   thread <- lookup_thread thread_id ;;
   ret (ctx_crew thread)).

(** [thread_context] is the dict stored under [thread_id]; it is passed here
    as that key. The dict always has its ['crew'] key. *)
Definition _handle_judgment_request (input : AgentInput) (thread_id : string)
    : M World Crew string :=
  let conversation := _format_conversation_context (messages input) in
  thread <- lookup_thread thread_id ;;
  let customer_id := default "unknown" (ctx_context thread !! "customer_id") in
  let last_response := default "" (ctx_context thread !! "last_response") in
  crew_info <- external (get_crew_info ext (ctx_crew thread)) ;;
  ret (dumps (JObj
    [("conversation_summary", JStr conversation);
     ("total_messages", JInt (Z.of_nat (length (messages input))));
     ("customer_id", JStr customer_id);
     ("last_response", JStr last_response);
     ("crew_info", crew_info)])).

(** The body of the [try] block of [call]. *)
Definition call_body (input : AgentInput) : M World Crew string :=
  crew <- _get_or_create_crew (thread_id input) ;;
  user_message <- lift (last_new_user_message_str input) ;;
  let customer_id := _extract_customer_id (messages input) in
  _ <- lookup_thread (thread_id input) ;;
  update_thread (thread_id input) (extend_messages (new_messages input)) ;;
  if judgment_request input then
    _handle_judgment_request input (thread_id input)
  else
    response <- run_in_executor ext crew user_message customer_id ;;
    let formatted_response := _format_crew_response response in
    update_thread (thread_id input) (set_context "last_response" formatted_response) ;;
    update_thread (thread_id input) (set_context "customer_id" customer_id) ;;
    ret formatted_response.

Definition call (input : AgentInput) : M World Crew string :=
  try_except (call_body input)
    (fun e =>
       print ("CrewAI Adapter Error: " +:+ error_msg e) ;;
       ret (apology e)).

End CrewAIAdapterMethods.

(** *** [IndividualAgentAdapter] *)

Section IndividualAgentAdapter.

(** The crew class, the list [crew.crew.agents] of a crew and the [role]
    attribute of an agent are the framework's. *)
Context {World Crew Agent : Type}.

Record agent_externals : Type := {
  (** the constructor call [self.crew_class(...)] with the stored keyword arguments *)
  agent_crew_class : World -> result Crew * World;
  (** [crew.crew.agents] *)
  crew_agents : Crew -> list Agent;
  (** [agent.role] *)
  role_of : Agent -> string
}.

Context (ext : agent_externals).

(** [self.agent_role], fixed by [__init__]. *)
Context (agent_role : string).

(** The attributes [self.crew] and [self.agent] ([None] after [__init__]),
    and the world of the framework. *)
Record agent_state : Type := {
  self_crew : option Crew;
  self_agent : option Agent;
  agent_world : World
}.

Definition _initialize_if_needed (st : agent_state) : result unit * agent_state :=
  match self_crew st with
  | Some _ => (Ok tt, st)
  | None =>
      match agent_crew_class ext (agent_world st) with
      | (Raise e, w) =>
          (Raise e, {| self_crew := None; self_agent := self_agent st; agent_world := w |})
      | (RaiseBase e, w) =>
          (RaiseBase e, {| self_crew := None; self_agent := self_agent st; agent_world := w |})
      | (Ok crew, w) =>
          let found :=
            match List.find (fun agent => String.eqb (role_of ext agent) agent_role)
                    (crew_agents ext crew) with
            | Some agent => Some agent
            | None => self_agent st
            end in
          let st' := {| self_crew := Some crew; self_agent := found; agent_world := w |} in
          match found with
          | Some _ => (Ok tt, st')
          | None =>
              (Raise ("Agent with role '" +:+ agent_role +:+ "' not found in crew"), st')
          end
      end
  end.

(** The four canned replies, keyed by role. *)
Definition role_responses (message : string) : list (string * string) :=
  [("Customer Service Triage Specialist",
    "I'll help route your inquiry: '" +:+ message
    +:+ "'. Let me determine the best specialist for your needs.");
   ("Technical Support Specialist",
    "I'll help you with this technical issue: '" +:+ message
    +:+ "'. Let me provide a step-by-step solution.");
   ("Billing Support Specialist",
    "I'll assist you with this billing matter: '" +:+ message
    +:+ "'. Let me review your account and resolve this.");
   ("Customer Service Manager",
    "I'll personally handle this escalated issue: '" +:+ message
    +:+ "'. Let me ensure we find the best solution for you.")].

(** [role_responses.get(self.agent_role, f"As a {self.agent_role}, ...")] *)
Definition _simulate_agent_response (message : string) : string :=
  match List.find (fun entry => String.eqb (fst entry) agent_role) (role_responses message) with
  | Some entry => snd entry
  | None => "As a " +:+ agent_role +:+ ", I'll help you with: '" +:+ message +:+ "'"
  end.

(** The body of the [try] block of [IndividualAgentAdapter.call]. *)
Definition agent_call_body (input : AgentInput) (st : agent_state)
    : result string * agent_state :=
  match _initialize_if_needed st with
  | (Raise e, st') => (Raise e, st')
  | (RaiseBase e, st') => (RaiseBase e, st')
  | (Ok _, st') =>
      match last_new_user_message_str input with
      | Raise e => (Raise e, st')
      | RaiseBase e => (RaiseBase e, st')
      | Ok user_message => (Ok (_simulate_agent_response user_message), st')
      end
  end.

(** [IndividualAgentAdapter.call] *)
Definition agent_call (input : AgentInput) (st : agent_state)
    : result string * agent_state :=
  match agent_call_body input st with
  | (Ok response, st') => (Ok response, st')
  | (Raise e, st') => (Ok ("Error in individual agent adapter: " +:+ e), st')
  | (RaiseBase e, st') => (RaiseBase e, st')
  end.

End IndividualAgentAdapter.

Arguments agent_externals : clear implicits.
Arguments agent_state : clear implicits.

End Adapter.

(* ===================================================================== *)
(** ** agents/customer_service_crew.py: the tools *)
(* ===================================================================== *)

Module Tools.

Import Py.

Module KnowledgeBaseTool.

(** The dict [kb_responses], in the order of its literal. *)
Definition kb_responses : list (string * list (string * string)) :=
  [("billing",
    [("refund", "Refunds can be processed within 5-7 business days. Customer needs to provide order number and reason for refund.");
     ("payment", "Payment issues can be resolved by updating payment method in account settings or contacting billing support.");
     ("subscription", "Subscription changes take effect immediately. Downgrades are prorated to the next billing cycle.")]);
   ("technical",
    [("login", "Login issues: 1) Clear browser cache 2) Reset password 3) Check account status 4) Contact support if persists");
     ("performance", "Performance issues: 1) Check internet connection 2) Update browser 3) Disable extensions 4) Try incognito mode");
     ("integration", "API integration issues: 1) Check API key validity 2) Verify endpoint URLs 3) Review rate limits 4) Check documentation")]);
   ("general",
    [("hours", "Customer support hours: Monday-Friday 9AM-6PM EST, Saturday 10AM-4PM EST");
     ("contact", "Contact options: Live chat, email support@company.com, phone 1-800-SUPPORT");
     ("account", "Account management: Login to dashboard to update profile, billing, and preferences")])].

(** The inner loop: [for key, response in responses.items():
      if key in query_lower or category in query_lower: return ...] *)
Fixpoint search_category (category : string) (responses : list (string * string))
    (query_lower : string) : option string :=
  match responses with
  | [] => None
  | (key, response) :: rest =>
      if (contains query_lower key || contains query_lower category)%bool
      then Some response
      else search_category category rest query_lower
  end.

(** The outer loop over the categories. *)
Fixpoint search (kb : list (string * list (string * string))) (query_lower : string)
    : option string :=
  match kb with
  | [] => None
  | (category, responses) :: rest =>
      match search_category category responses query_lower with
      | Some response => Some response
      | None => search rest query_lower
      end
  end.

Definition not_found : string :=
  "No specific knowledge base entry found. Please escalate to appropriate specialist.".

Definition _run (query : string) : string :=
  let query_lower := lower query in
  match search kb_responses query_lower with
  | Some response => "Knowledge Base Result: " +:+ response
  | None => not_found
  end.

End KnowledgeBaseTool.

Module CustomerDataTool.

(** One record of [customer_data]. The satisfaction score is a float literal
    of the source, kept as the text Python prints for it. *)
Record customer : Type := {
  name : string;
  tier : string;
  account_status : string;
  last_interaction : string;
  open_tickets : Z;
  satisfaction_score : string
}.

Definition customer_data : gmap string customer :=
  {[ "CUST001" := {| name := "John Smith"; tier := "Premium"; account_status := "Active";
                     last_interaction := "2024-01-15"; open_tickets := 0;
                     satisfaction_score := "4.5" |};
     "CUST002" := {| name := "Sarah Johnson"; tier := "Standard"; account_status := "Active";
                     last_interaction := "2024-01-10"; open_tickets := 1;
                     satisfaction_score := "3.8" |} ]}.

Definition _run (customer_id : string) : string :=
  match customer_data !! customer_id with
  | Some data =>
      "Customer: " +:+ name data +:+ ", Tier: " +:+ tier data
      +:+ ", Status: " +:+ account_status data
      +:+ ", Last Contact: " +:+ last_interaction data
      +:+ ", Open Tickets: " +:+ str_of_int (open_tickets data)
      +:+ ", Satisfaction: " +:+ satisfaction_score data +:+ "/5"
  | None => "Customer " +:+ customer_id +:+ " not found in database."
  end.

End CustomerDataTool.

End Tools.

(* ===================================================================== *)
(** ** Stand-ins for the harness and the crew *)
(* ===================================================================== *)

Module Mock.

Import Py Adapter.

(** A crew whose responder answers with an execution log line and a reply
    line; the world counts the crews constructed. *)
Definition echo_crew : externals nat unit := {|
  crew_class w := (Ok tt, S w);
  handle_inquiry _ user_message customer_id w :=
    (Ok ("Agent: working" +:+ String newline ("Hello " +:+ customer_id)), w);
  get_crew_info _ w :=
    (Ok (JObj [("agents", JList []); ("process", JStr "hierarchical");
               ("tools", JList [JStr "knowledge_base_search"])]), w)
|}.

(** A crew whose responder always raises. *)
Definition failing_crew : externals nat unit := {|
  crew_class w := (Ok tt, S w);
  handle_inquiry _ _ _ w := (Raise "kickoff failed", w);
  get_crew_info _ w := (Ok (JObj []), w)
|}.

(** A crew class whose constructor raises. *)
Definition unbuildable_crew : externals nat unit := {|
  crew_class w := (Raise "missing API key", w);
  handle_inquiry _ _ _ w := (Ok "never reached", w);
  get_crew_info _ w := (Ok (JObj []), w)
|}.


(** A crew whose [get_crew_info] raises. *)
Definition secretive_crew : externals nat unit := {|
  crew_class w := (Ok tt, S w);
  handle_inquiry _ _ _ w := (Ok "Hello", w);
  get_crew_info _ w := (Raise "'NoneType' object has no attribute 'agents'", w)
|}.

(** The adapter just after [__init__]. *)
Definition fresh : state nat unit := {|
  conversation_history := ∅;
  world := 0%nat;
  console := [];
  responder_calls := []
|}.

(** The input class of the module's own demo: every message is new, and
    the latest user message is looked up from the end, with the empty
    string when there is none. *)
Definition MockAgentInput (all : list message) : AgentInput := {|
  messages := all;
  new_messages := all;
  thread_id := "test_thread_001";
  judgment_request := false;
  last_new_user_message_str :=
    Ok (match List.find (fun msg => String.eqb (get_role msg) "user") (rev all) with
        | Some msg => format_content msg
        | None => ""
        end)
|}.

(** A conversational turn that brings one new user message. *)
Definition turn (thread text : string) : AgentInput := {|
  messages := [user_msg text];
  new_messages := [user_msg text];
  thread_id := thread;
  judgment_request := false;
  last_new_user_message_str := Ok text
|}.

(** A judgment request over a transcript, with one new user message. *)
Definition judgment (thread text : string) : AgentInput := {|
  messages := [user_msg text];
  new_messages := [user_msg text];
  thread_id := thread;
  judgment_request := true;
  last_new_user_message_str := Ok text
|}.

(** An input whose only new message is the assistant's: the harness method
    [last_new_user_message_str] finds no user message and raises. *)
Definition no_user_message (thread text : string) (judge : bool) : AgentInput := {|
  messages := [assistant_msg text];
  new_messages := [assistant_msg text];
  thread_id := thread;
  judgment_request := judge;
  last_new_user_message_str := Raise "No new user messages found"
|}.

(** [turns] exchanges of a user and an assistant message, then the user
    asks for the manager. *)
Definition escalation (turns : nat) : list message :=
  concat (replicate turns [user_msg "It still fails"; assistant_msg "Let me look into it"])
  ++ [user_msg "I want to speak to a manager"].

(** A transcript with one assistant span of [words] words. *)
Definition agent_says (words : nat) : string :=
  "CUSTOMER: hello" +:+ String newline (String newline
    ("AGENT: " +:+ String.concat " " (replicate words "word"))).

(** A reply of [words] words. *)
Definition reply (words : nat) : string := String.concat " " (replicate words "word").

(** Two replies in a row, each of [words] words. *)
Definition two_replies (words : nat) : list message :=
  [user_msg "hello"; assistant_msg (reply words); assistant_msg (reply words)].

(** Two replies of [words] words, each to a message of the user; a system
    message opens the list. *)
Definition exchange (words : nat) : list message :=
  [Message (Some "system") (Some (PyStr "You are a support agent"));
   user_msg "hello"; assistant_msg (reply words);
   user_msg "and then?"; assistant_msg (reply words)].

(** A raw reply that is all execution log. *)
Definition only_log : string :=
  "Agent: Customer Service Triage Specialist" +:+ String newline
  ("[DEBUG] delegating" +:+ String newline
  ("## Final Answer:" +:+ String newline "   ")).

(** A reply whose first line is indented and starts with a bracket. *)
Definition indented : string := " [note] see below" +:+ String newline "Restart the app".

Definition two_lines : string := "Hello Sir" +:+ String newline "Restart the app".

(** A reply with a log line, an indented line and a blank line. *)
Definition logged : string :=
  "Task: reply" +:+ String newline ("  Hello Sir  " +:+ String newline
  (String newline "Restart the app")).

(** A crew class with the four agents of [CustomerServiceCrew]; an agent
    is stood for by its role, and the world counts the crews constructed. *)
Definition four_agents : agent_externals nat unit string := {|
  agent_crew_class w := (Ok tt, S w);
  crew_agents _ :=
    ["Customer Service Triage Specialist"; "Technical Support Specialist";
     "Billing Support Specialist"; "Customer Service Manager"];
  role_of agent := agent
|}.

(** The individual agent adapter just after [__init__]. *)
Definition fresh_agent : agent_state nat unit string := {|
  self_crew := None;
  self_agent := None;
  agent_world := 0%nat
|}.

End Mock.

(* ===================================================================== *)
(** ** Vocabulary of the statements *)
(* ===================================================================== *)

Module Vocabulary.

Import Py Adapter.

(** *** Strings *)

(** [x] occurs in [s] *)
Definition occurs_in (x s : string) : Prop := exists a b, s = a +:+ x +:+ b.

(** A string that does not begin with white space. *)
Definition tight_left (s : string) : Prop :=
  match s with
  | EmptyString => True
  | String c _ => isspace c = false
  end.

Definition nl : string := String newline "".

(** A string with no newline in it. *)
Definition one_line (s : string) : Prop := ~ occurs_in nl s.

(** [sep] first occurs in [pre +:+ sep +:+ post] right after [pre]. *)
Definition first_at (sep pre post : string) : Prop :=
  forall a b, pre = a +:+ b -> b <> "" -> startswith (b +:+ sep +:+ post) sep = false.

(** *** Scores *)

(** A score within the closed interval from 1.0 to 10.0. *)
Definition in_1_10 (x : float) : bool := (PrimFloat.leb 1 x && PrimFloat.leb x 10)%bool.

(** The indicators found in a conversation, one flag per indicator. *)
Definition indicator_flags (indicators : list string) (conversation : string) : list bool :=
  map (fun indicator => contains (lower conversation) (lower indicator)) indicators.

Fixpoint apply_flags (update : float -> float) (flags : list bool) (score : float) : float :=
  match flags with
  | [] => score
  | b :: rest => apply_flags update rest (if b then update score else score)
  end.

(** All lists of [n] flags. *)
Fixpoint bool_lists (n : nat) : list (list bool) :=
  match n with
  | O => [[]]
  | S k => flat_map (fun l => [true :: l; false :: l]) (bool_lists k)
  end.

(** *** Customer ids *)

(** The tokens [_extract_customer_id] looks at in one message. *)
Definition tokens (msg : message) : list string :=
  match content msg with
  | Some (PyStr text) => split_ws (lower text)
  | _ => []
  end.

Definition is_cust (word : string) : bool := contains word "cust".

(** [found] stands right after the first token of [words] that contains
    the letters cust. *)
Definition follows_first_cust (words : list string) (found : string) : Prop :=
  exists i word,
    words !! i = Some word /\ is_cust word = true /\
    (forall j word', (j < i)%nat -> words !! j = Some word' -> is_cust word' = false) /\
    words !! S i = Some found.

(** No token that contains the letters cust has a token after it. *)
Definition no_cust_pair (words : list string) : Prop :=
  forall i word, words !! i = Some word -> is_cust word = true -> words !! S i = None.

(** *** Lines of a response *)

(** A line the cleaner discards. *)
Definition dropped (line : string) : Prop :=
  is_log_line line = true \/ strip line = "" \/
  startswith line "[" = true \/ startswith line "##" = true.

(** A line the cleaner keeps as it is. *)
Definition tidy (line : string) : Prop :=
  is_log_line line = false /\ strip line = line /\ line <> "" /\
  startswith line "[" = false /\ startswith line "##" = false.

Definition unbracketed (line : string) : Prop :=
  startswith line "[" = false /\ startswith line "##" = false.

(** The same three, as tests that compute. *)
Definition droppedb (line : string) : bool :=
  (is_log_line line || String.eqb (strip line) "" ||
   startswith line "[" || startswith line "##")%bool.

Definition tidyb (line : string) : bool :=
  (negb (is_log_line line) && String.eqb (strip line) line && negb (String.eqb line "")
   && negb (startswith line "[") && negb (startswith line "##"))%bool.

Definition unbracketedb (line : string) : bool :=
  (negb (startswith line "[") && negb (startswith line "##"))%bool.

(** *** Runs of the adapter *)

(** *** Transcripts of the quality judge *)

Definition is_user (msg : message) : bool := String.eqb (get_role msg) "user".
Definition is_assistant (msg : message) : bool := String.eqb (get_role msg) "assistant".

(** The messages the transcript of the quality judge shows. *)
Definition spoken (messages : list message) : list message :=
  List.filter (fun msg => is_user msg || is_assistant msg)%bool messages.

(** No assistant message is directly followed by another one. *)
Fixpoint in_turns (parts : list message) : bool :=
  match parts with
  | [] => true
  | a :: rest =>
      (match rest with
       | [] => true
       | b :: _ => negb (is_assistant a && is_assistant b)
       end && in_turns rest)%bool
  end.

(** A content that cannot be taken for a marker of the transcript: an
    assistant message is not empty and does not contain [CUSTOMER:], a user
    message does not contain [AGENT: ]. *)
Definition plain (msg : message) : bool :=
  if is_assistant msg
  then (negb (String.eqb (format_content msg) "")
        && negb (contains (format_content msg) "CUSTOMER:"))%bool
  else negb (contains (format_content msg) "AGENT: ").

(** The word counts of the assistant messages. *)
Definition reply_lengths (messages : list message) : list nat :=
  map (fun msg => length (split_ws (format_content msg))) (List.filter is_assistant messages).

(** The separator of the parts of the transcript: an empty line. *)
Definition gap : string := String newline (String newline "").

(** The part of the transcript that a message of the user or of the
    assistant gives. *)
Definition text (msg : message) : string :=
  if is_user msg then "CUSTOMER: " +:+ format_content msg
  else "AGENT: " +:+ format_content msg.

Definition is_spoken (msg : message) : bool := (is_user msg || is_assistant msg)%bool.

(** A string of white space only. *)
Fixpoint blank (s : string) : bool :=
  match s with
  | EmptyString => true
  | String c s' => (isspace c && blank s')%bool
  end.

(** The number of parts once a character is put before the first one. *)
Definition bump (n : nat) : nat := match n with O => 1%nat | S _ => n end.

(** *** Runs of the adapter *)

Section Runs.
Context {World Crew : Type}.

(** Every run of [m] relates the state before to the state after by [R]. *)
Definition steps (R : state World Crew -> state World Crew -> Prop) {A}
    (m : M World Crew A) : Prop :=
  forall st, R st (snd (m st)).

(** The responder has not been invoked between two states. *)
Definition same_calls (st st' : state World Crew) : Prop :=
  responder_calls st' = responder_calls st.

(** The entry of thread [t] is the same in two states. *)
Definition same_thread (t : string) (st st' : state World Crew) : Prop :=
  conversation_history st' !! t = conversation_history st !! t.

(** The entry [_get_or_create_crew] stores for a thread it has not seen. *)
Definition fresh_thread (crew : Crew) : thread_context Crew :=
  {| ctx_crew := crew; ctx_messages := []; ctx_context := ∅ |}.

(** The state once the new messages of [input] are stored. *)
Definition stored (input : AgentInput) (st0 : state World Crew) : state World Crew :=
  set_history (alter (extend_messages (new_messages input)) (thread_id input)
                 (conversation_history st0)) st0.

(** The summary a judgment request gets, from the entry of its thread. *)
Definition summary (input : AgentInput) (ctx : thread_context Crew) (crew_info : json) : string :=
  dumps (JObj
    [("conversation_summary", JStr (_format_conversation_context (messages input)));
     ("total_messages", JInt (Z.of_nat (length (messages input))));
     ("customer_id", JStr (default "unknown" (ctx_context ctx !! "customer_id")));
     ("last_response", JStr (default "" (ctx_context ctx !! "last_response")));
     ("crew_info", crew_info)]).




End Runs.

End Vocabulary.

(* ===================================================================== *)
(** ** Vocabulary of the further properties *)
(* ===================================================================== *)

Module MoreVocabulary.

Import Py Judges Adapter Tools Vocabulary.
Import CustomerServiceQualityJudge TechnicalAccuracyJudge.

(** *** Scores *)

(** The values [base], [update base], ... with at most [n] updates. *)
Definition bumps (update : float -> float) (n : nat) (base : float) : list float :=
  map (fun k => Nat.iter k update base) (seq 0 (S n)).

Definition below_10 (x : float) : bool := PrimFloat.ltb x 10.
Definition between_1_10 (x : float) : bool := (PrimFloat.ltb 1 x && PrimFloat.ltb x 10)%bool.

(** [lo <= x <= hi] *)
Definition within (lo hi x : float) : bool := (PrimFloat.leb lo x && PrimFloat.leb x hi)%bool.

(** What a scorer adds up before its clamp, and the values that can take. *)
Definition empathy_sums : list float := bumps (fun s => s + 0.5)%float 9 5%float.
Definition professionalism_sums : list float :=
  flat_map (bumps (fun s => s - 1)%float 4) (bumps (fun s => s + f0_3)%float 5 7%float).
Definition communication_values : list float := [5; 8; 6; 4]%float.
Definition technical_sums : list float :=
  flat_map (fun s => [s; s - 2]%float) (bumps (fun s => s + f0_2)%float 6 7%float).
Definition solution_sums : list float := bumps (fun s => s + f0_3)%float 9 6%float.
Definition guidance_sums : list float := bumps (fun s => s + f0_4)%float 6 6%float.

Definition empathy_sum conversation :=
  for_each_indicator empathy_indicators conversation (fun s => s + 0.5)%float 5%float.
Definition professionalism_sum conversation :=
  for_each_indicator unprofessional_indicators conversation (fun s => s - 1)%float
    (for_each_indicator professional_indicators conversation (fun s => s + f0_3)%float 7%float).
Definition technical_sum conversation :=
  let score := for_each_indicator technical_terms conversation (fun s => s + f0_2)%float 7%float in
  if (Py.contains (Py.lower conversation) "restart your computer"
      && Py.contains conversation "API")%bool then (score - 2)%float else score.
Definition solution_sum conversation :=
  for_each_indicator solution_indicators conversation (fun s => s + f0_3)%float 6%float.
Definition guidance_sum conversation :=
  for_each_indicator clarity_indicators conversation (fun s => s + f0_4)%float 6%float.

(** *** Tokens *)

(** A string that [lower] leaves as it is. *)
Definition lowered (s : string) : Prop := lower s = s.

(** A string with no white space in it. *)
Fixpoint spaceless (s : string) : bool :=
  match s with
  | EmptyString => true
  | String c s' => (negb (isspace c) && spaceless s')%bool
  end.

(** *** Messages *)

Definition standard_role (msg : message) : Prop :=
  get_role msg = "user" \/ get_role msg = "assistant" \/ get_role msg = "system".

(** *** The tools *)

(** The words the knowledge base looks for: each category and its keys. *)
Definition kb_keywords (kb : list (string * list (string * string))) : list string :=
  flat_map (fun entry => fst entry :: map fst (snd entry)) kb.

Definition refund_answer : string :=
  "Knowledge Base Result: Refunds can be processed within 5-7 business days. Customer needs to provide order number and reason for refund.".
Definition payment_answer : string :=
  "Knowledge Base Result: Payment issues can be resolved by updating payment method in account settings or contacting billing support.".
Definition subscription_answer : string :=
  "Knowledge Base Result: Subscription changes take effect immediately. Downgrades are prorated to the next billing cycle.".

(** *** The individual agent adapter *)

Definition agent_error (e : string) : string := "Error in individual agent adapter: " +:+ e.

Definition role_not_found (agent_role : string) : string :=
  "Agent with role '" +:+ agent_role +:+ "' not found in crew".

(** *** Runs of the adapter *)

Section MoreRuns.
Context {World Crew : Type}.
(** The state after the [except] clause has printed its line. *)
Definition reported (e : string) (st : state World Crew) : state World Crew :=
  {| conversation_history := conversation_history st; world := world st;
     console := console st ++ ["CrewAI Adapter Error: " +:+ error_msg e];
     responder_calls := responder_calls st |}.

(** The state once the responder has been invoked and has left the world [w]. *)
Definition dispatched (input : AgentInput) (user_message : string) (w : World)
    (st0 : state World Crew) : state World Crew :=
  {| conversation_history := conversation_history (stored input st0); world := w;
     console := console st0;
     responder_calls :=
       responder_calls st0 ++ [(user_message, _extract_customer_id (messages input))] |}.

(** The context of a thread after a turn that was answered with [response]. *)
Definition answered (input : AgentInput) (response : string)
    (ctx : thread_context Crew) : thread_context Crew :=
  set_context "customer_id" (_extract_customer_id (messages input))
    (set_context "last_response" (_format_crew_response response) ctx).

(** [ctx'] keeps the crew of [ctx] and extends its messages. *)
Definition grows (ctx ctx' : thread_context Crew) : Prop :=
  ctx_crew ctx' = ctx_crew ctx /\ exists more, ctx_messages ctx' = ctx_messages ctx ++ more.

End MoreRuns.

End MoreVocabulary.

(* ===================================================================== *)
(** ** Facts about the built-ins *)
(* ===================================================================== *)

Module StrFacts.

Import Py Vocabulary.

Lemma app_cons (c : ascii) (s t : string) : String c s +:+ t = String c (s +:+ t).
Proof. reflexivity. Qed.

Lemma app_nil_l (s : string) : "" +:+ s = s.
Proof. reflexivity. Qed.

Ltac push_app := rewrite ?app_cons, ?app_nil_l in *.

Lemma app_nil_r (s : string) : s +:+ "" = s.
Proof. induction s as [|c s IH]; push_app; [reflexivity|now rewrite IH]. Qed.

Lemma app_assoc (a b c : string) : (a +:+ b) +:+ c = a +:+ b +:+ c.
Proof. induction a as [|x a IH]; push_app; [reflexivity|now rewrite IH]. Qed.

Lemma lower_app (a b : string) : lower (a +:+ b) = lower a +:+ lower b.
Proof. induction a as [|x a IH]; push_app; simpl; push_app; [reflexivity|now rewrite IH]. Qed.

(** [startswith] and [contains] against concatenation *)

Lemma startswith_iff (s p : string) :
  startswith s p = true <-> exists b, s = p +:+ b.
Proof.
  revert s. induction p as [|a p IH]; intros s; simpl.
  - split; [intros _; now exists s|reflexivity].
  - destruct s as [|b s].
    + split; [discriminate|intros [x Hx]; discriminate].
    + rewrite andb_true_iff, Ascii.eqb_eq, IH. split.
      * intros [-> [x ->]]. now exists x.
      * intros [x Hx]. injection Hx as -> ->. split; [reflexivity|now exists x].
Qed.

Lemma contains_iff (s sub : string) :
  contains s sub = true <-> exists a b, s = a +:+ sub +:+ b.
Proof.
  induction s as [|c s IH].
  - simpl. rewrite orb_false_r, startswith_iff. split.
    + intros [b Hb]. now exists "", b.
    + intros [a [b H]]. destruct a; [now exists b|discriminate].
  - cbn [contains]. rewrite orb_true_iff, startswith_iff, IH. split.
    + intros [[b Hb] | [a [b Hab]]].
      * now exists "", b.
      * exists (String c a), b. rewrite app_cons. now rewrite Hab.
    + intros [a [b H]]. destruct a as [|x a].
      * left. now exists b.
      * right. rewrite app_cons in H. injection H as _ ->. now exists a, b.
Qed.

Lemma contains_occurs (s x sub : string) :
  occurs_in x s -> contains x sub = true -> contains s sub = true.
Proof.
  intros [a [b ->]]. rewrite !contains_iff. intros [a' [b' ->]].
  exists (a +:+ a'), (b' +:+ b). now rewrite !app_assoc.
Qed.

Lemma occurs_in_lower (x s : string) : occurs_in x s -> occurs_in (lower x) (lower s).
Proof. intros [a [b ->]]. exists (lower a), (lower b). now rewrite !lower_app. Qed.

Lemma occurs_in_refl s : occurs_in s s.
Proof. exists "", "". now rewrite app_nil_l, app_nil_r. Qed.

Lemma occurs_in_cons c x s : occurs_in x s -> occurs_in x (String c s).
Proof. intros [a [b ->]]. now exists (String c a), b. Qed.

(** stripping *)

Lemma lstrip_suffix (s : string) : exists a, s = a +:+ lstrip s.
Proof.
  induction s as [|c s [a IH]]; simpl; [now exists ""|].
  destruct (isspace c); [|now exists ""].
  exists (String c a). rewrite app_cons. now rewrite <- IH.
Qed.

Lemma rstrip_prefix (s : string) : exists b, s = rstrip s +:+ b.
Proof.
  induction s as [|c s [b IH]]; simpl; [now exists ""|].
  destruct (rstrip s) as [|d r] eqn:E.
  - destruct (isspace c); [now exists (String c s)|].
    exists s. reflexivity.
  - exists b. rewrite app_cons. now rewrite <- IH.
Qed.

Lemma strip_occurs (s : string) : occurs_in (strip s) s.
Proof.
  unfold strip. destruct (lstrip_suffix s) as [a Ha].
  destruct (rstrip_prefix (lstrip s)) as [b Hb].
  exists a, b. now rewrite <- Hb.
Qed.

Lemma lstrip_tight s : tight_left (lstrip s).
Proof.
  induction s as [|c s IH]; simpl; [exact I|].
  destruct (isspace c) eqn:E; [exact IH|exact E].
Qed.

Lemma lstrip_id s : tight_left s -> lstrip s = s.
Proof. destruct s as [|c s]; simpl; [reflexivity|]. now intros ->. Qed.

Lemma rstrip_tight s : tight_left s -> tight_left (rstrip s).
Proof.
  destruct s as [|c s]; simpl; [trivial|]. intros H.
  destruct (rstrip s); [rewrite H|]; exact H.
Qed.

Lemma rstrip_idem s : rstrip (rstrip s) = rstrip s.
Proof.
  induction s as [|c s IH]; simpl; [reflexivity|].
  destruct (rstrip s) as [|d r] eqn:E.
  - destruct (isspace c) eqn:Ec; simpl; [reflexivity|now rewrite Ec].
  - cbn [rstrip]. cbn [rstrip] in IH. rewrite IH. reflexivity.
Qed.

Lemma strip_idem s : strip (strip s) = strip s.
Proof.
  unfold strip. rewrite (lstrip_id (rstrip (lstrip s))).
  - apply rstrip_idem.
  - apply rstrip_tight, lstrip_tight.
Qed.


(** splitting at newlines and joining back *)

Lemma split_nl_nil : split "" nl = [""].
Proof. reflexivity. Qed.

Lemma split_nl_cons (c : ascii) (s : string) :
  split (String c s) nl
  = if Ascii.eqb newline c then "" :: split s nl else cons_first c (split s nl).
Proof.
  unfold split, nl. cbn [split_go startswith String.length Nat.sub].
  now rewrite andb_true_r.
Qed.

Lemma split_nl_not_nil (s : string) : split s nl <> [].
Proof.
  induction s as [|c s IH]; [discriminate|].
  rewrite split_nl_cons. destruct (Ascii.eqb newline c); [discriminate|].
  destruct (split s nl); [contradiction|discriminate].
Qed.

Lemma join_cons_cons (sep x y : string) (rest : list string) :
  join sep (x :: y :: rest) = x +:+ sep +:+ join sep (y :: rest).
Proof. reflexivity. Qed.

Lemma join_cons_first (c : ascii) (parts : list string) :
  parts <> [] -> join nl (cons_first c parts) = String c (join nl parts).
Proof.
  destruct parts as [|w [|w' ws]]; [contradiction| |]; intros _.
  - reflexivity.
  - unfold cons_first. now rewrite !join_cons_cons, app_cons.
Qed.

Lemma join_split (s : string) : join nl (split s nl) = s.
Proof.
  induction s as [|c s IH]; [reflexivity|].
  rewrite split_nl_cons. destruct (Ascii.eqb newline c) eqn:E.
  - apply Ascii.eqb_eq in E. subst c.
    pose proof (split_nl_not_nil s) as Hne.
    destruct (split s nl) as [|w ws]; [contradiction|].
    rewrite join_cons_cons, IH. reflexivity.
  - rewrite join_cons_first by apply split_nl_not_nil. now rewrite IH.
Qed.

Lemma one_line_nil : one_line "".
Proof. intros [a [b H]]. destruct a; discriminate. Qed.

Lemma one_line_cons (c : ascii) (s : string) :
  one_line (String c s) <-> c <> newline /\ one_line s.
Proof.
  unfold one_line. split.
  - intros H. split.
    + intros ->. apply H. now exists "", s.
    + intros Hs. apply H. now apply occurs_in_cons.
  - intros [Hc Hs] [a [b H]]. destruct a as [|x a].
    + rewrite app_nil_l in H. unfold nl in H. rewrite app_cons in H.
      injection H as H _. congruence.
    + rewrite app_cons in H. injection H as _ H. apply Hs. now exists a, b.
Qed.

Lemma one_line_occurs (x s : string) : occurs_in x s -> one_line s -> one_line x.
Proof.
  intros [a [b ->]] H [a' [b' ->]]. apply H.
  exists (a +:+ a'), (b' +:+ b). now rewrite !app_assoc.
Qed.

Lemma split_one_line (s : string) : Forall one_line (split s nl).
Proof.
  induction s as [|c s IH]; [repeat constructor; apply one_line_nil|].
  rewrite split_nl_cons. destruct (Ascii.eqb newline c) eqn:E.
  - constructor; [apply one_line_nil|exact IH].
  - apply Ascii.eqb_neq in E.
    destruct (split s nl) as [|w ws]; cbn [cons_first].
    + repeat constructor. apply one_line_cons. split; [congruence|apply one_line_nil].
    + inversion IH; subst. constructor; [|assumption].
      apply one_line_cons. split; [congruence|assumption].
Qed.

Lemma split_single (x : string) : one_line x -> split x nl = [x].
Proof.
  induction x as [|c x IH]; intros H; [reflexivity|].
  apply one_line_cons in H as [Hc Hx]. rewrite split_nl_cons.
  destruct (Ascii.eqb newline c) eqn:E; [apply Ascii.eqb_eq in E; congruence|].
  now rewrite IH.
Qed.

Lemma split_app_nl (x rest : string) :
  one_line x -> split (x +:+ nl +:+ rest) nl = x :: split rest nl.
Proof.
  induction x as [|c x IH]; intros H.
  - rewrite app_nil_l. unfold nl at 1. rewrite app_cons, app_nil_l, split_nl_cons.
    now rewrite Ascii.eqb_refl.
  - apply one_line_cons in H as [Hc Hx]. rewrite app_cons, split_nl_cons.
    destruct (Ascii.eqb newline c) eqn:E; [apply Ascii.eqb_eq in E; congruence|].
    now rewrite IH.
Qed.

Lemma split_join (parts : list string) :
  parts <> [] -> Forall one_line parts -> split (join nl parts) nl = parts.
Proof.
  induction parts as [|x rest IH]; [contradiction|]. intros _ H.
  inversion H as [|? ? Hx Hrest]; subst.
  destruct rest as [|y rest].
  - now apply split_single.
  - rewrite join_cons_cons, split_app_nl by assumption.
    now rewrite IH.
Qed.

Lemma join_not_empty (x : string) (rest : list string) :
  x <> "" -> join nl (x :: rest) <> "".
Proof.
  destruct x as [|c x]; [contradiction|]. intros _.
  destruct rest; [discriminate|]. rewrite join_cons_cons, app_cons. discriminate.
Qed.

(** [s.split()] yields pieces of [s] *)

Lemma split_ws_head (s w : string) (ws : list string) :
  tight_left s -> split_ws s = w :: ws -> exists b, s = w +:+ b.
Proof.
  revert w ws. induction s as [|c s IH]; intros w ws Ht; [discriminate|].
  cbn [tight_left] in Ht. cbn [split_ws]. rewrite Ht.
  destruct s as [|d s'].
  - intros [= <- <-]. now exists "".
  - destruct (isspace d) eqn:Ed.
    + intros [= <- <-]. now exists (String d s').
    + destruct (split_ws (String d s')) as [|w0 ws0] eqn:E; cbn [cons_first].
      * intros [= <- <-]. now exists (String d s').
      * intros [= <- <-]. destruct (IH w0 ws0 Ed eq_refl) as [b Hb].
        exists b. rewrite app_cons. now rewrite <- Hb.
Qed.

Lemma split_ws_occurs (s w : string) : In w (split_ws s) -> occurs_in w s.
Proof.
  revert w. induction s as [|c s IH]; intros w; [contradiction|].
  destruct (split_ws (String c s)) as [|w0 ws0] eqn:E0; [contradiction|].
  revert E0. cbn [split_ws]. destruct (isspace c) eqn:Ec.
  - intros E0 H. apply occurs_in_cons, IH. now rewrite E0.
  - intros E0 [<- | H].
    + assert (Hs : split_ws (String c s) = w0 :: ws0)
        by (cbn [split_ws]; now rewrite Ec).
      destruct (split_ws_head (String c s) w0 ws0 Ec Hs) as [b Hb].
      exists "", b. now rewrite app_nil_l.
    + apply occurs_in_cons, IH.
      destruct s as [|d s']; [injection E0 as _ <-; contradiction|].
      destruct (isspace d).
      * injection E0 as _ <-. exact H.
      * destruct (split_ws (String d s')) as [|w1 ws1]; cbn [cons_first] in E0;
          injection E0 as _ <-; [contradiction|now right].
Qed.

End StrFacts.

(* ===================================================================== *)
(** ** Facts about the scorers *)
(* ===================================================================== *)

Module ScoreFacts.

Import Py Judges Vocabulary.
Import CustomerServiceQualityJudge TechnicalAccuracyJudge EscalationAppropriatenessJudge.

Lemma for_each_indicator_flags indicators conversation update score :
  for_each_indicator indicators conversation update score
  = apply_flags update (indicator_flags indicators conversation) score.
Proof.
  revert score. induction indicators as [|i rest IH]; intros score; simpl; [reflexivity|].
  apply IH.
Qed.

Lemma bool_lists_complete (l : list bool) : In l (bool_lists (length l)).
Proof.
  induction l as [|b l IH]; simpl; [now left|].
  apply in_flat_map. exists l. split; [exact IH|].
  destruct b; simpl; auto.
Qed.

Lemma all_flags (P : list bool -> bool) (n : nat) :
  forallb P (bool_lists n) = true -> forall l, length l = n -> P l = true.
Proof.
  intros H l <-. rewrite forallb_forall in H. apply H, bool_lists_complete.
Qed.

Lemma indicator_flags_length indicators conversation :
  length (indicator_flags indicators conversation) = length indicators.
Proof. apply length_map. Qed.

(** A scorer made of one loop of bonuses and the cap at 10. *)
Ltac capped_loop n update base :=
  rewrite for_each_indicator_flags;
  apply (all_flags (fun fl => in_1_10 (Py.min 10 (apply_flags update fl base))) n);
  [vm_compute; reflexivity | apply indicator_flags_length].

Lemma empathy_range conversation : in_1_10 (_evaluate_empathy conversation) = true.
Proof.
  unfold _evaluate_empathy.
  capped_loop 9%nat (fun s : float => (s + 0.5)%float) 5%float.
Qed.

Lemma listening_range conversation : in_1_10 (_evaluate_listening conversation) = true.
Proof.
  unfold _evaluate_listening.
  capped_loop 6%nat (fun s : float => (s + 0.5)%float) 6%float.
Qed.

Lemma problem_solving_range conversation :
  in_1_10 (_evaluate_problem_solving conversation) = true.
Proof.
  unfold _evaluate_problem_solving.
  capped_loop 7%nat (fun s : float => (s + f0_4)%float) 5%float.
Qed.

Lemma customer_focus_range conversation :
  in_1_10 (_evaluate_customer_focus conversation) = true.
Proof.
  unfold _evaluate_customer_focus.
  capped_loop 6%nat (fun s : float => (s + f0_3)%float) 6%float.
Qed.

Lemma solution_quality_range conversation :
  in_1_10 (_evaluate_solution_quality conversation) = true.
Proof.
  unfold _evaluate_solution_quality.
  capped_loop 9%nat (fun s : float => (s + f0_3)%float) 6%float.
Qed.

Lemma guidance_clarity_range conversation :
  in_1_10 (_evaluate_guidance_clarity conversation) = true.
Proof.
  unfold _evaluate_guidance_clarity.
  capped_loop 6%nat (fun s : float => (s + f0_4)%float) 6%float.
Qed.

Lemma all_flags2 (P : list bool -> list bool -> bool) (n m : nat) :
  forallb (fun l1 => forallb (P l1) (bool_lists m)) (bool_lists n) = true ->
  forall l1 l2, length l1 = n -> length l2 = m -> P l1 l2 = true.
Proof.
  intros H l1 l2 <- <-. rewrite forallb_forall in H.
  specialize (H l1 (bool_lists_complete l1)). rewrite forallb_forall in H.
  apply H, bool_lists_complete.
Qed.

Lemma professionalism_range conversation : in_1_10 (_evaluate_professionalism conversation) = true.
Proof.
  unfold _evaluate_professionalism. rewrite !for_each_indicator_flags.
  apply (all_flags2
    (fun f1 f2 => in_1_10 (Py.max 1 (Py.min 10
       (apply_flags (fun s => s - 1)%float f2
         (apply_flags (fun s => s + f0_3)%float f1 7%float))))) 5 4).
  - vm_compute. reflexivity.
  - apply indicator_flags_length.
  - apply indicator_flags_length.
Qed.

Lemma communication_cases conversation :
  _evaluate_communication conversation = 5%float \/
  _evaluate_communication conversation = 8%float \/
  _evaluate_communication conversation = 6%float \/
  _evaluate_communication conversation = 4%float.
Proof.
  unfold _evaluate_communication.
  destruct (findall_agent_spans conversation); [now left|].
  destruct (_ && _)%bool; [now right; left|].
  destruct (_ || _)%bool; [now right; right; left|now right; right; right].
Qed.

Lemma communication_range conversation : in_1_10 (_evaluate_communication conversation) = true.
Proof.
  destruct (communication_cases conversation) as [-> | [-> | [-> | ->]]]; reflexivity.
Qed.

Lemma technical_accuracy_range conversation :
  in_1_10 (_evaluate_technical_accuracy conversation) = true.
Proof.
  unfold _evaluate_technical_accuracy. rewrite for_each_indicator_flags.
  generalize (contains (lower conversation) "restart your computer" && contains conversation "API")%bool.
  intros mistake.
  apply (all_flags2
    (fun fl m => in_1_10 (Py.max 1 (Py.min 10
       (let score := apply_flags (fun s => s + f0_2)%float fl 7%float in
        if hd false m then (score - 2)%float else score)))) 6 1 eq_refl _ [mistake]).
  - apply indicator_flags_length.
  - reflexivity.
Qed.


Lemma timing_cases conversation :
  let t := _evaluate_escalation_timing conversation in
  t = "Too early - should attempt resolution first" \/ t = "Appropriate timing" \/
  t = "Too late - should have escalated sooner" \/ t = "No escalation occurred".
Proof.
  unfold _evaluate_escalation_timing.
  repeat match goal with |- context [if ?b then _ else _] => destruct b end; simpl; auto.
Qed.

Lemma escalation_score_range conversation :
  in_1_10 (_calculate_escalation_score conversation) = true.
Proof.
  unfold _calculate_escalation_score.
  generalize (timing_cases conversation). cbv zeta.
  generalize (_evaluate_escalation_timing conversation). intros t Ht.
  generalize (escalation_warranted (_assess_escalation_need conversation)).
  generalize (contains (lower conversation) "manager").
  unfold process_values.
  destruct (_evaluate_escalation_process conversation) as [p1 p2 p3 p4]. simpl.
  intros b1 b2.
  destruct Ht as [-> | [-> | [-> | ->]]];
    destruct b1, b2, p1, p2, p3, p4; vm_compute; reflexivity.
Qed.

End ScoreFacts.

(* ===================================================================== *)
(** ** Facts about the escalation timing *)
(* ===================================================================== *)

Module TimingFacts.

Import Py Judges Vocabulary StrFacts.
Import EscalationAppropriatenessJudge.

Lemma startswith_app (p rest : string) : startswith (p +:+ rest) p = true.
Proof. apply startswith_iff. now exists rest. Qed.

Lemma split_go_skip (sep x rest : string) :
  split_go sep (String.length x) (x +:+ rest) = split_go sep 0 rest.
Proof.
  induction x as [|c x IH]; [reflexivity|].
  rewrite app_cons. cbn [String.length split_go]. exact IH.
Qed.

Lemma split_at_first (sep pre post : string) :
  sep <> "" -> first_at sep pre post ->
  split (pre +:+ sep +:+ post) sep = pre :: split post sep.
Proof.
  intros Hsep. unfold split. induction pre as [|c pre IH]; intros Hfirst.
  - rewrite app_nil_l. destruct sep as [|d sep]; [contradiction|].
    rewrite app_cons. cbn [split_go]. rewrite <- app_cons, startswith_app.
    cbn [String.length]. rewrite Nat.sub_succ, Nat.sub_0_r.
    now rewrite split_go_skip.
  - rewrite app_cons. cbn [split_go]. rewrite <- app_cons.
    rewrite (Hfirst "" (String c pre)) by (reflexivity || discriminate).
    rewrite IH; [reflexivity|].
    intros a b -> Hb. apply (Hfirst (String c a) b); [now rewrite app_cons|exact Hb].
Qed.

Lemma split_go_not_nil (sep s : string) (skip : nat) : split_go sep skip s <> [].
Proof.
  revert skip. induction s as [|c s IH]; intros skip; [discriminate|].
  cbn [split_go]. destruct skip; [|apply IH].
  destruct (startswith (String c s) sep); [discriminate|].
  specialize (IH 0%nat). destruct (split_go sep 0 s); [contradiction|discriminate].
Qed.

(** On a transcript in which the word manager occurs, the verdict is read off
    the number of markers AGENT: before its first occurrence. *)
Lemma timing_by_marker_count (pre post : string) :
  first_at "manager" pre post ->
  _evaluate_escalation_timing (pre +:+ "manager" +:+ post)
  = if (count pre "AGENT:" <=? 2)%nat then "Too early - should attempt resolution first"
    else if (count pre "AGENT:" <=? 5)%nat then "Appropriate timing"
    else "Too late - should have escalated sooner".
Proof.
  intros Hfirst. unfold _evaluate_escalation_timing.
  assert (contains (lower (pre +:+ "manager" +:+ post)) "manager" = true) as ->.
  { apply contains_iff. exists (lower pre), (lower post). now rewrite !lower_app. }
  rewrite split_at_first by (discriminate || assumption).
  pose proof (split_go_not_nil "manager" post 0) as Hne. unfold split.
  destruct (split_go "manager" 0 post); [contradiction|reflexivity].
Qed.

(** [count] finds nothing where the marker does not occur. *)
Lemma count_go_absent (sub s : string) (skip : nat) :
  contains s sub = false -> count_go sub skip s = 0%nat.
Proof.
  revert skip. induction s as [|c s IH]; intros skip H; [reflexivity|].
  cbn [contains] in H. apply orb_false_iff in H as [H1 H2].
  cbn [count_go]. destruct skip; [rewrite H1|]; now apply IH.
Qed.

Lemma contains_prefix (x rest sub : string) :
  contains (x +:+ rest) sub = false -> contains x sub = false.
Proof.
  intros H. destruct (contains x sub) eqn:E; [|reflexivity].
  rewrite (contains_occurs (x +:+ rest) x sub) in H; [discriminate| |exact E].
  exists "", rest. now rewrite app_nil_l.
Qed.

Lemma split_go_head_prefix (sep s : string) (skip : nat) :
  exists rest, s = hd "" (split_go sep skip s) +:+ rest \/ skip <> 0%nat.
Proof.
  revert skip. induction s as [|c s IH]; intros skip.
  - exists "". now left.
  - destruct skip as [|k]; [|exists ""; now right].
    cbn [split_go]. destruct (startswith (String c s) sep).
    + exists (String c s). now left.
    + destruct (IH 0%nat) as [rest [H | H]]; [|contradiction].
      exists rest. left. destruct (split_go sep 0 s) as [|w ws]; cbn [cons_first hd] in *.
      * rewrite app_cons. now rewrite <- H.
      * rewrite app_cons. now rewrite <- H.
Qed.

(** Without the marker AGENT: in the transcript, no verdict but the early one
    (or none) is possible. *)
Lemma timing_without_marker (conversation : string) :
  contains conversation "AGENT:" = false ->
  _evaluate_escalation_timing conversation = "Too early - should attempt resolution first" \/
  _evaluate_escalation_timing conversation = "No escalation occurred".
Proof.
  intros H. unfold _evaluate_escalation_timing.
  destruct (contains (lower conversation) "manager"); [|now right].
  destruct (1 <? length (split conversation "manager"))%nat; [|now right].
  left. unfold count. rewrite count_go_absent; [reflexivity|].
  destruct (split_go_head_prefix "manager" conversation 0) as [rest [Hr | Hr]];
    [|contradiction].
  unfold split. apply (contains_prefix _ rest). now rewrite <- Hr.
Qed.

End TimingFacts.

(* ===================================================================== *)
(** ** Facts about the adapter's helpers *)
(* ===================================================================== *)

Module HelperFacts.

Import Py Adapter Vocabulary StrFacts.

Lemma word_after_cust_none (words : list string) :
  no_cust_pair words -> word_after_cust words = None.
Proof.
  induction words as [|word rest IH]; intros H; [reflexivity|].
  cbn [word_after_cust]. fold (is_cust word).
  destruct (is_cust word) eqn:E.
  - specialize (H 0%nat word eq_refl E). destruct rest; [|discriminate].
    reflexivity.
  - simpl. apply IH. intros i w Hi Hw. exact (H (S i) w Hi Hw).
Qed.

Lemma word_after_cust_first (words : list string) (found : string) :
  follows_first_cust words found -> word_after_cust words = Some found.
Proof.
  intros [i [word [Hi [Hc [Hfirst Hnext]]]]].
  revert words Hi Hfirst Hnext. induction i as [|i IH]; intros words Hi Hfirst Hnext.
  - destruct words as [|w rest]; [discriminate|]. injection Hi as ->.
    cbn [word_after_cust]. fold (is_cust word). rewrite Hc.
    destruct rest as [|v rest']; [discriminate|]. simpl in *. congruence.
  - destruct words as [|w rest]; [discriminate|].
    cbn [word_after_cust]. fold (is_cust w).
    rewrite (Hfirst 0%nat w ltac:(lia) eq_refl). simpl.
    apply IH; [exact Hi| |exact Hnext].
    intros j w' Hj Hw'. apply (Hfirst (S j) w'); [lia|exact Hw'].
Qed.

Lemma word_after_cust_has_cust (words : list string) (found : string) :
  word_after_cust words = Some found -> exists word, In word words /\ is_cust word = true.
Proof.
  induction words as [|word rest IH]; [discriminate|].
  cbn [word_after_cust]. fold (is_cust word). destruct (is_cust word) eqn:E.
  - intros _. exists word. split; [now left|exact E].
  - simpl. intros H. destruct (IH H) as [w [Hw Hc]]. exists w. split; [now right|exact Hc].
Qed.

(** The test on the whole content never hides a token that contains "cust". *)
Lemma guard_redundant (text : string) :
  (contains text "customer id" || contains text "cust")%bool = false ->
  word_after_cust (split_ws text) = None.
Proof.
  intros H. apply orb_false_iff in H as [_ H].
  destruct (word_after_cust (split_ws text)) as [found|] eqn:E; [|reflexivity].
  destruct (word_after_cust_has_cust _ _ E) as [w [Hw Hc]].
  apply split_ws_occurs in Hw. unfold is_cust in Hc.
  rewrite (contains_occurs text w "cust" Hw Hc) in H. discriminate.
Qed.

Lemma extract_cons (msg : message) (rest : list message) :
  _extract_customer_id (msg :: rest)
  = match word_after_cust (tokens msg) with
    | Some found => found
    | None => _extract_customer_id rest
    end.
Proof.
  cbn [_extract_customer_id]. unfold tokens.
  destruct (content msg) as [[text|r]|]; try reflexivity.
  destruct (_ || _)%bool eqn:E; [reflexivity|].
  now rewrite (guard_redundant _ E).
Qed.

Lemma extract_default (messages : list message) :
  Forall (fun msg => no_cust_pair (tokens msg)) messages ->
  _extract_customer_id messages = "CUST001".
Proof.
  induction 1 as [|msg rest H _ IH]; [reflexivity|].
  now rewrite extract_cons, (word_after_cust_none _ H).
Qed.

Lemma extract_found (before after : list message) (msg : message) (found : string) :
  Forall (fun m => no_cust_pair (tokens m)) before ->
  follows_first_cust (tokens msg) found ->
  _extract_customer_id (before ++ msg :: after) = found.
Proof.
  intros Hb Hm. induction Hb as [|m rest H _ IH].
  - cbn [app]. now rewrite extract_cons, (word_after_cust_first _ _ Hm).
  - cbn [app]. now rewrite extract_cons, (word_after_cust_none _ H).
Qed.


Lemma Forall_forallb {A} (P : A -> Prop) (p : A -> bool) (l : list A) :
  (forall x, p x = true -> P x) -> forallb p l = true -> Forall P l.
Proof.
  intros Hp H. apply List.Forall_forall. intros x Hx.
  apply Hp. rewrite forallb_forall in H. now apply H.
Qed.

Lemma droppedb_ok (line : string) : droppedb line = true -> dropped line.
Proof.
  unfold droppedb, dropped. rewrite !orb_true_iff, String.eqb_eq. tauto.
Qed.

Lemma tidyb_ok (line : string) : tidyb line = true -> tidy line.
Proof.
  unfold tidyb, tidy.
  rewrite !andb_true_iff, !negb_true_iff, String.eqb_eq, String.eqb_neq. tauto.
Qed.

Lemma unbracketedb_ok (line : string) : unbracketedb line = true -> unbracketed line.
Proof.
  unfold unbracketedb, unbracketed. rewrite !andb_true_iff, !negb_true_iff. tauto.
Qed.

Lemma response_line_iff (line : string) :
  is_response_line line = true <->
  strip line <> "" /\ startswith line "[" = false /\ startswith line "##" = false.
Proof.
  unfold is_response_line. rewrite !andb_true_iff, !negb_true_iff, String.eqb_neq.
  tauto.
Qed.

Lemma dropped_not_kept (line : string) :
  dropped line -> is_log_line line = true \/ is_response_line line = false.
Proof.
  intros [H | H]; [now left|right].
  destruct (is_response_line line) eqn:E; [|reflexivity].
  apply response_line_iff in E as [E1 [E2 E3]].
  destruct H as [H | [H | H]]; congruence.
Qed.

Lemma clean_lines_nil (lines : list string) :
  Forall dropped lines -> clean_lines lines = [].
Proof.
  induction 1 as [|line rest H _ IH]; [reflexivity|].
  cbn [clean_lines]. destruct (dropped_not_kept _ H) as [-> | E]; [exact IH|].
  destruct (is_log_line line); [exact IH|]. now rewrite E.
Qed.

Lemma clean_lines_In (x : string) (lines : list string) :
  In x (clean_lines lines) ->
  exists line, In line lines /\ is_log_line line = false /\
    is_response_line line = true /\ x = strip line.
Proof.
  induction lines as [|line rest IH]; [contradiction|].
  cbn [clean_lines]. destruct (is_log_line line) eqn:El.
  - intros H. destruct (IH H) as [l [? ?]]. exists l. split; [now right|assumption].
  - destruct (is_response_line line) eqn:Er.
    + intros [<- | H].
      * exists line. repeat split; [now left|assumption..].
      * destruct (IH H) as [l [? ?]]. exists l. split; [now right|assumption].
    + intros H. destruct (IH H) as [l [? ?]]. exists l. split; [now right|assumption].
Qed.

Lemma clean_lines_tidy (lines : list string) :
  Forall tidy lines -> clean_lines lines = lines.
Proof.
  induction 1 as [|line rest [H1 [H2 [H3 [H4 H5]]]] _ IH]; [reflexivity|].
  cbn [clean_lines]. rewrite H1.
  assert (is_response_line line = true) as ->
    by (apply response_line_iff; rewrite H2; auto).
  now rewrite H2, IH.
Qed.

Lemma log_line_strip (line : string) :
  is_log_line line = false -> is_log_line (strip line) = false.
Proof.
  intros H. destruct (is_log_line (strip line)) eqn:E; [|reflexivity].
  unfold is_log_line in *. apply existsb_exists in E as [p [Hp Hc]].
  assert (existsb (fun skip_phrase => contains (lower line) skip_phrase) skip_phrases = true)
    as Hl; [|congruence].
  apply existsb_exists. exists p. split; [exact Hp|].
  eapply contains_occurs; [|exact Hc]. apply occurs_in_lower, strip_occurs.
Qed.

Lemma kept_lines_nonempty (x : string) (lines : list string) :
  In x (clean_lines lines) -> x <> "".
Proof.
  intros H. destruct (clean_lines_In _ _ H) as [line [_ [_ [Hr ->]]]].
  now apply response_line_iff in Hr as [Hr _].
Qed.

Lemma format_all_dropped (response : string) :
  Forall dropped (split response nl) -> _format_crew_response response = response.
Proof.
  intros H. unfold _format_crew_response. fold nl. now rewrite (clean_lines_nil _ H).
Qed.

Lemma format_not_empty (response : string) :
  response <> "" -> _format_crew_response response <> "".
Proof.
  intros H. unfold _format_crew_response. fold nl.
  destruct (clean_lines (split response nl)) as [|x rest] eqn:E; [exact H|].
  apply join_not_empty. apply (kept_lines_nonempty x (split response nl)).
  rewrite E. now left.
Qed.

Lemma format_tidy (response : string) :
  Forall tidy (split response nl) -> _format_crew_response response = response.
Proof.
  intros H. unfold _format_crew_response. fold nl.
  rewrite (clean_lines_tidy _ H).
  pose proof (split_nl_not_nil response) as Hne. pose proof (join_split response) as Hj.
  destruct (split response nl); [contradiction|exact Hj].
Qed.

Lemma format_twice (response : string) :
  Forall unbracketed (clean_lines (split response nl)) ->
  _format_crew_response (_format_crew_response response) = _format_crew_response response.
Proof.
  intros H.
  destruct (clean_lines (split response nl)) as [|x rest] eqn:E.
  - assert (Hf : _format_crew_response response = response)
      by (unfold _format_crew_response; fold nl; now rewrite E).
    rewrite Hf. exact Hf.
  - assert (Hf : _format_crew_response response = join nl (x :: rest))
      by (unfold _format_crew_response; fold nl; now rewrite E).
    rewrite Hf. apply format_tidy.
    assert (Ht : Forall tidy (x :: rest)).
    { rewrite <- E in H |- *. apply List.Forall_forall. intros y Hy.
      rewrite List.Forall_forall in H. destruct (H y Hy) as [Hb1 Hb2].
      destruct (clean_lines_In _ _ Hy) as [line [Hin [Hl [Hr ->]]]].
      apply response_line_iff in Hr as [Hr _].
      repeat split; auto using log_line_strip, strip_idem. }
    rewrite split_join; [exact Ht|discriminate|].
    rewrite <- E. apply List.Forall_forall. intros y Hy.
    destruct (clean_lines_In _ _ Hy) as [line [Hin [_ [_ ->]]]].
    apply (one_line_occurs _ line (strip_occurs line)).
    pose proof (split_one_line response) as Hs. rewrite List.Forall_forall in Hs. now apply Hs.
Qed.

End HelperFacts.

(* ===================================================================== *)
(** ** Facts about the adapter's calls *)
(* ===================================================================== *)

Module AdapterFacts.

Import Py Adapter Vocabulary.

Section Steps.
Context {World Crew : Type}.
Abbreviation state := (state World Crew).
Abbreviation M := (M World Crew).

Context (R : state -> state -> Prop) (R_refl : forall st, R st st)
  (R_trans : forall a b c, R a b -> R b c -> R a c).

Lemma steps_ret {A} (a : A) : steps R (ret a).
Proof. intros st. apply R_refl. Qed.

Lemma steps_lift {A} (r : result A) : steps R (lift r).
Proof. intros st. apply R_refl. Qed.

Lemma steps_bind {A B} (m : M A) (k : A -> M B) :
  steps R m -> (forall a, steps R (k a)) -> steps R (bind m k).
Proof.
  intros Hm Hk st. unfold bind. specialize (Hm st).
  destruct (m st) as [[a|e|e] st']; simpl in *; [|exact Hm|exact Hm].
  eapply R_trans; [exact Hm|apply Hk].
Qed.

Lemma steps_try {A} (m : M A) (h : string -> M A) :
  steps R m -> (forall e, steps R (h e)) -> steps R (try_except m h).
Proof.
  intros Hm Hh st. unfold try_except. specialize (Hm st).
  destruct (m st) as [[a|e|e] st']; simpl in *; [exact Hm| |exact Hm].
  eapply R_trans; [exact Hm|apply Hh].
Qed.

Lemma steps_if {A} (b : bool) (m1 m2 : M A) :
  steps R m1 -> steps R m2 -> steps R (if b then m1 else m2).
Proof. now destruct b. Qed.

Lemma steps_has_thread t : steps R (has_thread t).
Proof. intros st. apply R_refl. Qed.

Lemma steps_lookup_thread t : steps R (lookup_thread t).
Proof. intros st. unfold lookup_thread. destruct (_ !! _); apply R_refl. Qed.

End Steps.

Section Frames.
Context {World Crew : Type} (ext : externals World Crew).
Abbreviation state := (state World Crew).
Local Abbreviation steps := (Vocabulary.steps (World:=World) (Crew:=Crew)).
Local Abbreviation same_calls := (Vocabulary.same_calls (World:=World) (Crew:=Crew)).
Local Abbreviation same_thread := (Vocabulary.same_thread (World:=World) (Crew:=Crew)).

Lemma same_thread_refl t (st : state) : same_thread t st st.
Proof. reflexivity. Qed.
Lemma same_thread_trans t (a b c : state) :
  same_thread t a b -> same_thread t b c -> same_thread t a c.
Proof. unfold same_thread. congruence. Qed.

Lemma external_calls {A} (f : World -> result A * World) : steps same_calls (external f).
Proof. intros st. unfold external. now destruct (f (world st)). Qed.

Lemma external_thread {A} t (f : World -> result A * World) : steps (same_thread t) (external f).
Proof. intros st. unfold external. now destruct (f (world st)). Qed.

Lemma print_calls line : steps same_calls (print line).
Proof. intros st. reflexivity. Qed.

Lemma print_thread t line : steps (same_thread t) (print line).
Proof. intros st. reflexivity. Qed.

Lemma store_thread_calls t (ctx : thread_context Crew) :
  steps same_calls (store_thread t ctx).
Proof. intros st. reflexivity. Qed.

Lemma update_thread_calls t (f : thread_context Crew -> thread_context Crew) :
  steps same_calls (update_thread t f).
Proof. intros st. reflexivity. Qed.

Lemma store_thread_other t t' (ctx : thread_context Crew) :
  t' <> t -> steps (same_thread t) (store_thread t' ctx).
Proof. intros H st. unfold same_thread. simpl. now apply lookup_insert_ne. Qed.

Lemma update_thread_other t t' (f : thread_context Crew -> thread_context Crew) :
  t' <> t -> steps (same_thread t) (update_thread t' f).
Proof. intros H st. unfold same_thread. simpl. now apply lookup_alter_ne. Qed.

Lemma run_in_executor_thread t crew u cid :
  steps (same_thread t) (run_in_executor ext crew u cid).
Proof.
  intros st. unfold run_in_executor, external. simpl.
  now destruct (handle_inquiry ext crew u cid (world st)).
Qed.

Ltac frame_step refl trans :=
  first
    [ apply (steps_bind _ trans); [|intros ?]
    | apply (steps_try _ trans); [|intros ?]
    | apply steps_if
    | apply (steps_ret _ refl)
    | apply (steps_lift _ refl)
    | apply (steps_has_thread _ refl)
    | apply (steps_lookup_thread _ refl)
    | apply external_calls | apply external_thread
    | apply print_calls | apply print_thread
    | apply store_thread_calls | apply update_thread_calls
    | apply store_thread_other; assumption
    | apply update_thread_other; assumption
    | apply run_in_executor_thread
    | assumption ].

Ltac frame_thread t := repeat frame_step (same_thread_refl t) (same_thread_trans t).


Lemma get_or_create_other t t' : t' <> t -> steps (same_thread t) (_get_or_create_crew ext t').
Proof. intros H. unfold _get_or_create_crew. frame_thread t. Qed.


Lemma judgment_thread input t t' : steps (same_thread t) (_handle_judgment_request ext input t').
Proof. unfold _handle_judgment_request. frame_thread t. Qed.

Lemma call_other_thread input t :
  thread_id input <> t -> steps (same_thread t) (call ext input).
Proof.
  intros H. unfold call, call_body.
  pose proof (get_or_create_other t (thread_id input) H).
  pose proof (judgment_thread input t (thread_id input)).
  frame_thread t.
Qed.



(** *** What [_get_or_create_crew] returns *)

Lemma get_or_create_known t (st : state) ctx :
  conversation_history st !! t = Some ctx ->
  _get_or_create_crew ext t st = (Ok (ctx_crew ctx), st).
Proof.
  intros H. unfold _get_or_create_crew, bind, has_thread, lookup_thread, ret.
  rewrite H. rewrite bool_decide_eq_true_2 by eauto. simpl. now rewrite H.
Qed.

Lemma get_or_create_new t (st : state) crew w :
  conversation_history st !! t = None ->
  crew_class ext (world st) = (Ok crew, w) ->
  _get_or_create_crew ext t st
  = (Ok crew, set_history (<[t := fresh_thread crew]> (conversation_history st))
                (set_world w st)).
Proof.
  intros H Hc. unfold _get_or_create_crew, bind, has_thread, lookup_thread, ret,
    external, store_thread.
  rewrite H. rewrite bool_decide_eq_false_2 by (intros [? ?]; discriminate). simpl.
  rewrite Hc. simpl. now rewrite lookup_insert_eq.
Qed.

Lemma get_or_create_fails t (st : state) e w :
  conversation_history st !! t = None ->
  crew_class ext (world st) = (Raise e, w) ->
  _get_or_create_crew ext t st = (Raise e, set_world w st).
Proof.
  intros H Hc. unfold _get_or_create_crew, bind, has_thread, external.
  rewrite H. rewrite bool_decide_eq_false_2 by (intros [? ?]; discriminate). simpl.
  now rewrite Hc.
Qed.

Lemma get_or_create_passes t (st : state) e w :
  conversation_history st !! t = None ->
  crew_class ext (world st) = (RaiseBase e, w) ->
  _get_or_create_crew ext t st = (RaiseBase e, set_world w st).
Proof.
  intros H Hc. unfold _get_or_create_crew, bind, has_thread, external.
  rewrite H. rewrite bool_decide_eq_false_2 by (intros [? ?]; discriminate). simpl.
  now rewrite Hc.
Qed.

(** After a successful [_get_or_create_crew] the thread is stored, with the
    crew that was returned; it is the entry that was there, or a fresh one. *)
Lemma get_or_create_stored t (st st0 : state) crew :
  _get_or_create_crew ext t st = (Ok crew, st0) ->
  exists ctx0, conversation_history st0 !! t = Some ctx0 /\ ctx_crew ctx0 = crew /\
    (conversation_history st !! t = Some ctx0 \/
     (conversation_history st !! t = None /\ ctx0 = fresh_thread crew)).
Proof.
  intros H. destruct (conversation_history st !! t) as [ctx|] eqn:E.
  - rewrite (get_or_create_known t st ctx E) in H. injection H as <- <-.
    exists ctx. auto.
  - destruct (crew_class ext (world st)) as [[c|e|e] w] eqn:Ec.
    + rewrite (get_or_create_new t st c w E Ec) in H. injection H as <- <-.
      exists (fresh_thread c). simpl. rewrite lookup_insert_eq. auto.
    + rewrite (get_or_create_fails t st e w E Ec) in H. discriminate.
    + rewrite (get_or_create_passes t st e w E Ec) in H. discriminate.
Qed.

(** *** The [try] block up to the branch on [judgment_request] *)

Lemma call_body_reaches_branch input (st st0 : state) crew user_message :
  _get_or_create_crew ext (thread_id input) st = (Ok crew, st0) ->
  last_new_user_message_str input = Ok user_message ->
  call_body ext input st
  = (if judgment_request input then _handle_judgment_request ext input (thread_id input)
     else
       bind (run_in_executor ext crew user_message (_extract_customer_id (messages input)))
         (fun response =>
          bind (update_thread (thread_id input)
                  (set_context "last_response" (_format_crew_response response)))
            (fun _ =>
             bind (update_thread (thread_id input)
                     (set_context "customer_id" (_extract_customer_id (messages input))))
               (fun _ => ret (_format_crew_response response)))))
    (stored input st0).
Proof.
  intros Hc Hu. destruct (get_or_create_stored _ _ _ _ Hc) as [ctx0 [H0 _]].
  unfold call_body. unfold bind at 1. rewrite Hc.
  unfold bind at 1. unfold lift. rewrite Hu.
  unfold bind at 1. unfold lookup_thread at 1. rewrite H0.
  unfold bind at 1. unfold update_thread at 1. reflexivity.
Qed.



Lemma call_body_no_user_message input (st st0 : state) crew e :
  _get_or_create_crew ext (thread_id input) st = (Ok crew, st0) ->
  last_new_user_message_str input = Raise e ->
  call_body ext input st = (Raise e, st0).
Proof.
  intros Hc Hu. unfold call_body. unfold bind at 1. rewrite Hc.
  unfold bind at 1. unfold lift. now rewrite Hu.
Qed.

Lemma call_body_user_message_passes input (st st0 : state) crew e :
  _get_or_create_crew ext (thread_id input) st = (Ok crew, st0) ->
  last_new_user_message_str input = RaiseBase e ->
  call_body ext input st = (RaiseBase e, st0).
Proof.
  intros Hc Hu. unfold call_body. unfold bind at 1. rewrite Hc.
  unfold bind at 1. unfold lift. now rewrite Hu.
Qed.

Lemma stored_lookup input (st0 : state) ctx0 :
  conversation_history st0 !! thread_id input = Some ctx0 ->
  conversation_history (stored input st0) !! thread_id input
  = Some (extend_messages (new_messages input) ctx0).
Proof. intros H. unfold stored. simpl. now rewrite lookup_alter_eq, H. Qed.

Lemma judgment_result input t (st : state) ctx :
  conversation_history st !! t = Some ctx ->
  _handle_judgment_request ext input t st
  = match get_crew_info ext (ctx_crew ctx) (world st) with
    | (Ok crew_info, w) => (Ok (summary input ctx crew_info), set_world w st)
    | (Raise e, w) => (Raise e, set_world w st)
    | (RaiseBase e, w) => (RaiseBase e, set_world w st)
    end.
Proof.
  intros H. unfold _handle_judgment_request, bind, lookup_thread, external, ret.
  rewrite H. now destruct (get_crew_info ext (ctx_crew ctx) (world st)) as [[i|e|e] w].
Qed.

Lemma call_of_body input (st : state) :
  call ext input st
  = match call_body ext input st with
    | (Ok a, st') => (Ok a, st')
    | (Raise e, st') =>
        (Ok (apology e),
         {| conversation_history := conversation_history st'; world := world st';
            console := console st' ++ ["CrewAI Adapter Error: " +:+ error_msg e];
            responder_calls := responder_calls st' |})
    | (RaiseBase e, st') => (RaiseBase e, st')
    end.
Proof.
  unfold call, try_except. destruct (call_body ext input st) as [[a|e|e] st']; reflexivity.
Qed.

End Frames.

End AdapterFacts.

(* ===================================================================== *)
(** ** Facts about whole calls *)
(* ===================================================================== *)

Module CallFacts.

Import Py Adapter Vocabulary StrFacts AdapterFacts.

Section MoreAdapterFacts.
Context {World Crew : Type} (ext : externals World Crew).

(** After the branch: the stored messages of the thread stay as [stored] left them. *)
Lemma call_appends input (st st0 : state World Crew) crew u ctx0 :
  _get_or_create_crew ext (thread_id input) st = (Ok crew, st0) ->
  last_new_user_message_str input = Ok u ->
  conversation_history st0 !! thread_id input = Some ctx0 ->
  exists ctx, conversation_history (snd (call ext input st)) !! thread_id input = Some ctx /\
    ctx_messages ctx = ctx_messages ctx0 ++ new_messages input /\
    ctx_crew ctx = ctx_crew ctx0.
Proof.
  intros Hc Hu H0. rewrite call_of_body, (call_body_reaches_branch ext input st st0 crew u Hc Hu).
  pose proof (stored_lookup input st0 ctx0 H0) as Hs.
  destruct (judgment_request input).
  - rewrite (judgment_result ext input _ _ _ Hs).
    destruct (get_crew_info ext _ _) as [[info|e|e] w]; simpl;
      exists (extend_messages (new_messages input) ctx0); rewrite <- Hs; auto.
  - unfold bind at 1. unfold run_in_executor, external. simpl.
    destruct (handle_inquiry ext crew u _ (world st0)) as [[response|e|e] w]; simpl.
    + rewrite !lookup_alter_eq, H0. simpl. eexists. split; [reflexivity|]. simpl. auto.
    + rewrite !lookup_alter_eq, H0. simpl. eexists. split; [reflexivity|]. simpl. auto.
    + rewrite !lookup_alter_eq, H0. simpl. eexists. split; [reflexivity|]. simpl. auto.
Qed.





End MoreAdapterFacts.


End CallFacts.

(* ===================================================================== *)
(** ** Further facts about the built-ins and the judges *)
(* ===================================================================== *)

Module SplitFacts.

Import Py Vocabulary StrFacts TimingFacts.

Lemma cons_first_length (c : ascii) (parts : list string) :
  parts <> [] -> length (cons_first c parts) = length parts.
Proof. destruct parts; [contradiction|reflexivity]. Qed.

(** [len(s.split(sep)) == s.count(sep) + 1] *)
Lemma split_go_length (sep s : string) (skip : nat) :
  length (split_go sep skip s) = S (count_go sep skip s).
Proof.
  revert skip. induction s as [|c s IH]; intros skip; [reflexivity|].
  cbn [split_go count_go]. destruct skip as [|k]; [|apply IH].
  destruct (startswith (String c s) sep).
  - cbn [length]. now rewrite IH.
  - rewrite cons_first_length by apply split_go_not_nil. apply IH.
Qed.

Lemma split_length (s sep : string) : length (split s sep) = S (count s sep).
Proof. apply split_go_length. Qed.

Lemma count_go_present (sub s : string) :
  sub <> "" -> contains s sub = true -> (0 < count_go sub 0 s)%nat.
Proof.
  intros Hsub. induction s as [|c s IH]; intros H.
  - destruct sub; [contradiction|discriminate].
  - cbn [contains] in H. cbn [count_go].
    destruct (startswith (String c s) sub); [lia|]. now apply IH.
Qed.

Lemma count_positive_iff (s sub : string) :
  sub <> "" -> (0 < count s sub)%nat <-> contains s sub = true.
Proof.
  intros Hsub. split.
  - intros H. destruct (contains s sub) eqn:E; [reflexivity|].
    unfold count in H. rewrite (count_go_absent sub s 0 E) in H. lia.
  - now apply count_go_present.
Qed.

Lemma contains_lower (s sub : string) :
  contains s sub = true -> contains (lower s) (lower sub) = true.
Proof.
  rewrite !contains_iff. intros [a [b ->]]. exists (lower a), (lower b).
  now rewrite !lower_app.
Qed.

(** A lower-case word found in a text is found in the lowered text. *)
Lemma contains_lowered (s sub : string) :
  lower sub = sub -> contains s sub = true -> contains (lower s) sub = true.
Proof. intros E H. rewrite <- E. now apply contains_lower. Qed.

End SplitFacts.

Module JudgeFacts.

Import Py Judges Vocabulary StrFacts TimingFacts SplitFacts.
Import CustomerServiceQualityJudge TechnicalAccuracyJudge EscalationAppropriatenessJudge.

(** The timing verdict sees an escalation exactly when the word manager
    occurs in the transcript as written, in lower case. *)
Lemma timing_none_iff (conversation : string) :
  _evaluate_escalation_timing conversation = "No escalation occurred"
  <-> contains conversation "manager" = false.
Proof.
  unfold _evaluate_escalation_timing. rewrite split_length.
  destruct (contains conversation "manager") eqn:E.
  - rewrite (contains_lowered conversation "manager" eq_refl E).
    apply (count_positive_iff conversation "manager") in E; [|discriminate].
    replace (1 <? S (count conversation "manager"))%nat with true
      by (symmetry; apply Nat.ltb_lt; lia).
    split; [|discriminate].
    repeat match goal with |- context [if ?b then _ else _] => destruct b end; discriminate.
  - split; [reflexivity|intros _].
    assert (count conversation "manager" = 0%nat) as ->
      by (apply (count_go_absent "manager" conversation 0 E)).
    now destruct (contains (lower conversation) "manager").
Qed.

Lemma completeness_iff (conversation : string) :
  TechnicalAccuracyJudge._evaluate_solution_completeness conversation
  = "Complete - Multi-step solution provided"
  <-> (2 <= count conversation "step")%nat.
Proof.
  unfold _evaluate_solution_completeness. rewrite split_length. split.
  - destruct (contains (lower conversation) "step"); cbn [andb].
    + destruct (2 <? S (count conversation "step"))%nat eqn:E.
      * intros _. apply Nat.ltb_lt in E. lia.
      * destruct (contains (lower conversation) "try"); discriminate.
    + destruct (contains (lower conversation) "try"); discriminate.
  - intros H.
    assert (contains conversation "step" = true) as Hc
      by (apply count_positive_iff; [discriminate|lia]).
    rewrite (contains_lowered conversation "step" eq_refl Hc).
    replace (2 <? S (count conversation "step"))%nat with true
      by (symmetry; apply Nat.ltb_lt; lia).
    reflexivity.
Qed.

End JudgeFacts.

Module AggregateFacts.

Import Py Judges Vocabulary MoreVocabulary StrFacts ScoreFacts.
Import CustomerServiceQualityJudge TechnicalAccuracyJudge EscalationAppropriatenessJudge.

Lemma iter_shift {A} (f : A -> A) (n : nat) (x : A) : Nat.iter n f (f x) = f (Nat.iter n f x).
Proof. now rewrite <- Nat.iter_succ_r, Nat.iter_succ. Qed.

Lemma apply_flags_iter (update : float -> float) (flags : list bool) (score : float) :
  exists k, (k <= length flags)%nat /\ apply_flags update flags score = Nat.iter k update score.
Proof.
  revert score. induction flags as [|b rest IH]; intros score.
  - exists 0%nat. split; [reflexivity|reflexivity].
  - cbn [apply_flags]. destruct b.
    + destruct (IH (update score)) as [k [Hk ->]]. exists (S k).
      split; [simpl; lia|]. rewrite Nat.iter_succ. apply iter_shift.
    + destruct (IH score) as [k [Hk ->]]. exists k. split; [simpl; lia|reflexivity].
Qed.

Lemma apply_flags_in_bumps (update : float -> float) (flags : list bool) (n : nat) (score : float) :
  length flags = n -> In (apply_flags update flags score) (bumps update n score).
Proof.
  intros <-. destruct (apply_flags_iter update flags score) as [k [Hk ->]].
  unfold bumps. apply in_map_iff. exists k. split; [reflexivity|].
  apply in_seq. lia.
Qed.

Lemma loop_in_bumps indicators conversation update score :
  In (for_each_indicator indicators conversation update score)
     (bumps update (length indicators) score).
Proof.
  rewrite for_each_indicator_flags. apply apply_flags_in_bumps, indicator_flags_length.
Qed.

Lemma forallb_In {A} (P : A -> bool) (l : list A) (x : A) :
  forallb P l = true -> In x l -> P x = true.
Proof. intros H. rewrite forallb_forall in H. apply H. Qed.

Lemma empathy_sum_in c : In (empathy_sum c) empathy_sums.
Proof. apply (loop_in_bumps empathy_indicators). Qed.

Lemma professionalism_sum_in c : In (professionalism_sum c) professionalism_sums.
Proof.
  unfold professionalism_sum, professionalism_sums. apply in_flat_map.
  eexists. split; [apply (loop_in_bumps professional_indicators)|].
  apply (loop_in_bumps unprofessional_indicators).
Qed.

Lemma technical_sum_in c : In (technical_sum c) technical_sums.
Proof.
  unfold technical_sum, technical_sums. apply in_flat_map.
  eexists. split; [apply (loop_in_bumps technical_terms)|].
  cbv zeta. destruct (_ && _)%bool; simpl; auto.
Qed.

Lemma solution_sum_in c : In (solution_sum c) solution_sums.
Proof. apply (loop_in_bumps solution_indicators). Qed.

Lemma guidance_sum_in c : In (guidance_sum c) guidance_sums.
Proof. apply (loop_in_bumps clarity_indicators). Qed.

Lemma communication_in c : In (_evaluate_communication c) communication_values.
Proof.
  destruct (communication_cases c) as [-> | [-> | [-> | ->]]]; simpl; auto.
Qed.

Lemma min_below (x : float) : below_10 x = true -> Py.min 10 x = x.
Proof. unfold below_10, Py.min. now intros ->. Qed.

Lemma clamp_between (x : float) : between_1_10 x = true -> Py.max 1 (Py.min 10 x) = x.
Proof.
  unfold between_1_10, Py.max, Py.min. intros H. apply andb_true_iff in H as [H1 H2].
  now rewrite H2, H1.
Qed.

Lemma empathy_unclamped c : _evaluate_empathy c = empathy_sum c.
Proof.
  apply min_below, (forallb_In below_10 empathy_sums); [vm_compute; reflexivity|].
  apply empathy_sum_in.
Qed.

Lemma professionalism_unclamped c : _evaluate_professionalism c = professionalism_sum c.
Proof.
  apply clamp_between, (forallb_In between_1_10 professionalism_sums);
    [vm_compute; reflexivity|apply professionalism_sum_in].
Qed.

Lemma technical_unclamped c : _evaluate_technical_accuracy c = technical_sum c.
Proof.
  apply clamp_between, (forallb_In between_1_10 technical_sums);
    [vm_compute; reflexivity|apply technical_sum_in].
Qed.

Lemma solution_unclamped c : _evaluate_solution_quality c = solution_sum c.
Proof.
  apply min_below, (forallb_In below_10 solution_sums);
    [vm_compute; reflexivity|apply solution_sum_in].
Qed.

Lemma guidance_unclamped c : _evaluate_guidance_clarity c = guidance_sum c.
Proof.
  apply min_below, (forallb_In below_10 guidance_sums);
    [vm_compute; reflexivity|apply guidance_sum_in].
Qed.

Lemma forallb_In3 {A B C} (P : A -> B -> C -> bool) la lb lc a b c :
  forallb (fun a => forallb (fun b => forallb (P a b) lc) lb) la = true ->
  In a la -> In b lb -> In c lc -> P a b c = true.
Proof.
  intros H Ha Hb Hc.
  apply (forallb_In (P a b) lc c); [|exact Hc].
  apply (forallb_In (fun b => forallb (P a b) lc) lb b); [|exact Hb].
  apply (forallb_In (fun a => forallb (fun b => forallb (P a b) lc) lb) la a); assumption.
Qed.

Lemma overall_score_bounds c : within 4 8.75 (overall_score c) = true.
Proof.
  unfold overall_score. rewrite empathy_unclamped, professionalism_unclamped.
  apply (forallb_In3 (fun e p m => within 4 8.75 ((e + p + m) / 3)%float)
           empathy_sums professionalism_sums communication_values);
    [vm_compute; reflexivity|apply empathy_sum_in|apply professionalism_sum_in
    |apply communication_in].
Qed.

Lemma overall_technical_bounds c : within 5.5 8.5 (overall_technical_score c) = true.
Proof.
  unfold overall_technical_score.
  rewrite technical_unclamped, solution_unclamped, guidance_unclamped.
  apply (forallb_In3 (fun t s g => within 5.5 8.5 ((t + s + g) / 3)%float)
           technical_sums solution_sums guidance_sums);
    [vm_compute; reflexivity|apply technical_sum_in|apply solution_sum_in
    |apply guidance_sum_in].
Qed.

(** A capped sum of bonuses lies in a range when every value of its list does. *)
Ltac capped_sum_within indicators :=
  match goal with
  | |- within ?lo ?hi (Py.min 10 (for_each_indicator _ ?c ?update ?base)) = true =>
      apply (forallb_In (fun x => within lo hi (Py.min 10 x))
               (bumps update (length indicators) base));
      [vm_compute; reflexivity | apply (loop_in_bumps indicators)]
  end.

End AggregateFacts.

Module OwnTranscriptFacts.

Import Py Judges Vocabulary MoreVocabulary StrFacts TimingFacts.
Import EscalationAppropriatenessJudge.

Lemma one_line_tail (c : ascii) (s : string) : one_line (String c s) -> one_line s.
Proof. intros H. now apply one_line_cons in H. Qed.

Lemma startswith_before_newline (x rest sub : string) :
  one_line sub -> startswith (x +:+ nl +:+ rest) sub = true -> startswith x sub = true.
Proof.
  revert x. induction sub as [|a sub IH]; intros x Hs; [reflexivity|].
  apply one_line_cons in Hs as [Ha Hs]. destruct x as [|c x].
  - rewrite app_nil_l. unfold nl. rewrite app_cons. cbn [startswith].
    intros H. apply andb_true_iff in H as [H _]. apply Ascii.eqb_eq in H. congruence.
  - rewrite app_cons. cbn [startswith]. intros H. apply andb_true_iff in H as [H1 H2].
    rewrite H1. cbn [andb]. now apply IH.
Qed.

Lemma contains_across_newline (x rest sub : string) :
  one_line sub -> contains (x +:+ nl +:+ rest) sub = true ->
  contains x sub = true \/ contains rest sub = true.
Proof.
  intros Hs. induction x as [|c x IH].
  - rewrite app_nil_l. unfold nl at 1. rewrite app_cons, app_nil_l. cbn [contains].
    intros H. apply orb_true_iff in H as [H | H]; [|now right].
    left. destruct sub as [|a sub]; [reflexivity|].
    apply one_line_cons in Hs as [Ha _]. cbn [startswith] in H.
    apply andb_true_iff in H as [H _]. apply Ascii.eqb_eq in H. congruence.
  - rewrite app_cons. cbn [contains]. intros H. apply orb_true_iff in H as [H | H].
    + left. rewrite <- app_cons in H.
      now rewrite (startswith_before_newline _ _ _ Hs H).
    + destruct (IH H) as [H' | H']; [left|now right].
      rewrite H'. apply orb_true_r.
Qed.

Lemma contains_join (parts : list string) (sub : string) :
  one_line sub -> contains (join nl parts) sub = true ->
  sub = "" \/ exists part, In part parts /\ contains part sub = true.
Proof.
  intros Hs. induction parts as [|x rest IH].
  - cbn [join contains]. destruct sub; [now left|discriminate].
  - destruct rest as [|y rest].
    + cbn [join]. intros H. right. exists x. split; [now left|exact H].
    + rewrite join_cons_cons. intros H.
      destruct (contains_across_newline _ _ _ Hs H) as [H' | H'].
      * right. exists x. split; [now left|exact H'].
      * destruct (IH H') as [-> | [p [Hp Hc]]]; [now left|].
        right. exists p. split; [now right|exact Hc].
Qed.

Lemma marker_one_line : one_line "AGENT:".
Proof.
  repeat (apply one_line_cons; split; [discriminate|]). apply one_line_nil.
Qed.

(** In a line of the escalation transcript the marker can only come from
    the content. *)
Lemma line_marker (msg : message) :
  standard_role msg ->
  contains (get_role msg +:+ ": " +:+ format_content msg) "AGENT:"
  = contains (format_content msg) "AGENT:".
Proof.
  intros [-> | [-> | ->]]; rewrite !app_cons, app_nil_l;
    generalize (format_content msg); intros text;
    repeat (cbn [contains]; match goal with
            | |- (startswith (String ?c ?s) "AGENT:" || _)%bool = _ =>
                change (startswith (String c s) "AGENT:") with false; cbn [orb]
            end); reflexivity.
Qed.

Lemma own_transcript_has_no_marker (messages : list message) :
  Forall (fun msg => standard_role msg /\ contains (format_content msg) "AGENT:" = false)
    messages ->
  contains (_extract_conversation messages) "AGENT:" = false.
Proof.
  intros H. destruct (contains (_extract_conversation messages) "AGENT:") eqn:E;
    [|reflexivity].
  unfold _extract_conversation in E. fold nl in E.
  apply (contains_join _ _ marker_one_line) in E as [E | [part [Hin Hc]]]; [discriminate|].
  apply in_map_iff in Hin as [msg [<- Hin]].
  rewrite List.Forall_forall in H. destruct (H msg Hin) as [Hr Hm].
  rewrite (line_marker msg Hr) in Hc. congruence.
Qed.

End OwnTranscriptFacts.

(* ===================================================================== *)
(** ** Further facts about the adapters and the tools *)
(* ===================================================================== *)

Module TurnFacts.

Import Py Adapter Vocabulary MoreVocabulary StrFacts AdapterFacts CallFacts.

Section TurnFacts.
Context {World Crew : Type} (ext : externals World Crew).


Lemma call_no_user_message input (st st0 : state World Crew) crew e :
  _get_or_create_crew ext (thread_id input) st = (Ok crew, st0) ->
  last_new_user_message_str input = Raise e ->
  call ext input st = (Ok (apology e), reported e st0).
Proof.
  intros Hc Hu.
  now rewrite call_of_body, (call_body_no_user_message ext input st st0 crew e Hc Hu).
Qed.


Lemma call_user_message_passes input (st st0 : state World Crew) crew e :
  _get_or_create_crew ext (thread_id input) st = (Ok crew, st0) ->
  last_new_user_message_str input = RaiseBase e ->
  call ext input st = (RaiseBase e, st0).
Proof.
  intros Hc Hu.
  now rewrite call_of_body, (call_body_user_message_passes ext input st st0 crew e Hc Hu).
Qed.

Lemma call_judgment input (st st0 : state World Crew) crew u ctx0 :
  judgment_request input = true ->
  _get_or_create_crew ext (thread_id input) st = (Ok crew, st0) ->
  last_new_user_message_str input = Ok u ->
  conversation_history st0 !! thread_id input = Some ctx0 ->
  call ext input st
  = match get_crew_info ext (ctx_crew ctx0) (world st0) with
    | (Ok crew_info, w) =>
        (Ok (summary input (extend_messages (new_messages input) ctx0) crew_info),
         set_world w (stored input st0))
    | (Raise e, w) => (Ok (apology e), reported e (set_world w (stored input st0)))
    | (RaiseBase e, w) => (RaiseBase e, set_world w (stored input st0))
    end.
Proof.
  intros Hj Hc Hu H0.
  rewrite call_of_body, (call_body_reaches_branch ext input st st0 crew u Hc Hu), Hj.
  rewrite (judgment_result ext input _ _ _ (stored_lookup input st0 ctx0 H0)).
  cbn [extend_messages ctx_crew]. change (world (stored input st0)) with (world st0).
  now destruct (get_crew_info ext (ctx_crew ctx0) (world st0)) as [[info|e|e] w].
Qed.

Lemma call_turn input (st st0 : state World Crew) crew u :
  judgment_request input = false ->
  _get_or_create_crew ext (thread_id input) st = (Ok crew, st0) ->
  last_new_user_message_str input = Ok u ->
  call ext input st
  = match handle_inquiry ext crew u (_extract_customer_id (messages input)) (world st0) with
    | (Ok response, w) =>
        (Ok (_format_crew_response response),
         set_history
           (alter (set_context "customer_id" (_extract_customer_id (messages input)))
              (thread_id input)
              (alter (set_context "last_response" (_format_crew_response response))
                 (thread_id input) (conversation_history (stored input st0))))
           (dispatched input u w st0))
    | (Raise e, w) => (Ok (apology e), reported e (dispatched input u w st0))
    | (RaiseBase e, w) => (RaiseBase e, dispatched input u w st0)
    end.
Proof.
  intros Hj Hc Hu.
  rewrite call_of_body, (call_body_reaches_branch ext input st st0 crew u Hc Hu), Hj.
  unfold bind at 1. unfold run_in_executor, external. simpl.
  now destruct (handle_inquiry ext crew u _ (world st0)) as [[response|e|e] w].
Qed.

(** The entry of the thread after an answered turn. *)
Lemma call_turn_entry input (st st0 : state World Crew) crew u ctx0 response w :
  judgment_request input = false ->
  _get_or_create_crew ext (thread_id input) st = (Ok crew, st0) ->
  last_new_user_message_str input = Ok u ->
  conversation_history st0 !! thread_id input = Some ctx0 ->
  handle_inquiry ext crew u (_extract_customer_id (messages input)) (world st0)
  = (Ok response, w) ->
  conversation_history (snd (call ext input st)) !! thread_id input
  = Some (answered input response (extend_messages (new_messages input) ctx0)) /\
  world (snd (call ext input st)) = w.
Proof.
  intros Hj Hc Hu H0 Hr. rewrite (call_turn input st st0 crew u Hj Hc Hu), Hr. simpl.
  now rewrite !lookup_alter_eq, H0.
Qed.

(** Whatever a call does, an entry that was stored stays, with its crew,
    and its messages only grow. *)
Lemma call_grows input (st : state World Crew) t ctx :
  conversation_history st !! t = Some ctx ->
  exists ctx', conversation_history (snd (call ext input st)) !! t = Some ctx' /\ grows ctx ctx'.
Proof.
  intros Ht. destruct (decide (thread_id input = t)) as [<- | Hne].
  - pose proof (get_or_create_known ext (thread_id input) st ctx Ht) as Hc.
    destruct (last_new_user_message_str input) as [u|e|e] eqn:Hu.
    + destruct (call_appends ext input st st (ctx_crew ctx) u ctx Hc Hu Ht)
        as [ctx' [H' [Hm Hcr]]].
      exists ctx'. split; [exact H'|]. split; [exact Hcr|now exists (new_messages input)].
    + rewrite (call_no_user_message input st st (ctx_crew ctx) e Hc Hu). simpl.
      exists ctx. split; [exact Ht|]. split; [reflexivity|exists []; now rewrite List.app_nil_r].
    + rewrite (call_user_message_passes input st st (ctx_crew ctx) e Hc Hu). simpl.
      exists ctx. split; [exact Ht|]. split; [reflexivity|exists []; now rewrite List.app_nil_r].
  - exists ctx. split.
    + rewrite <- Ht. exact (call_other_thread ext input t Hne st).
    + split; [reflexivity|exists []; now rewrite List.app_nil_r].
Qed.


End TurnFacts.
End TurnFacts.

Module TokenFacts.

Import Py Adapter Vocabulary MoreVocabulary StrFacts HelperFacts.

Lemma lower_char_idem (c : ascii) : lower_char (lower_char c) = lower_char c.
Proof. destruct c as [[] [] [] [] [] [] [] []]; reflexivity. Qed.

Lemma lower_idem (s : string) : lower (lower s) = lower s.
Proof.
  induction s as [|c s IH]; [reflexivity|].
  cbn [lower]. now rewrite lower_char_idem, IH.
Qed.

Lemma app_lowered (a b : string) : lowered (a +:+ b) -> lowered a /\ lowered b.
Proof.
  unfold lowered. induction a as [|c a IH].
  - rewrite !app_nil_l. now split.
  - rewrite app_cons. cbn [lower]. intros [= Hc H]. destruct (IH H) as [Ha Hb].
    split; [now rewrite Hc, Ha|exact Hb].
Qed.

Lemma occurs_lowered (w s : string) : occurs_in w s -> lowered s -> lowered w.
Proof.
  intros [a [b ->]] H. apply app_lowered in H as [_ H]. now apply app_lowered in H as [H _].
Qed.

Lemma split_ws_nonempty (s w : string) : In w (split_ws s) -> w <> "".
Proof.
  revert w. induction s as [|c s IH]; intros w; [contradiction|].
  cbn [split_ws]. destruct (isspace c); [apply IH|].
  destruct s as [|d s'].
  - intros [<- | []]. discriminate.
  - destruct (isspace d).
    + intros [<- | H]; [discriminate|now apply IH].
    + destruct (split_ws (String d s')) as [|w0 ws0]; cbn [cons_first].
      * intros [<- | []]. discriminate.
      * intros [<- | H]; [discriminate|]. apply IH. now right.
Qed.

Lemma split_ws_spaceless (s w : string) : In w (split_ws s) -> spaceless w = true.
Proof.
  revert w. induction s as [|c s IH]; intros w; [contradiction|].
  cbn [split_ws]. destruct (isspace c) eqn:Ec; [apply IH|].
  destruct s as [|d s'].
  - intros [<- | []]. cbn [spaceless]. now rewrite Ec.
  - destruct (isspace d) eqn:Ed.
    + intros [<- | H]; [cbn [spaceless]; now rewrite Ec|now apply IH].
    + destruct (split_ws (String d s')) as [|w0 ws0] eqn:E; cbn [cons_first].
      * intros [<- | []]. cbn [spaceless]. now rewrite Ec.
      * intros [<- | H].
        -- cbn [spaceless]. rewrite Ec. cbn [negb andb]. apply IH. now left.
        -- apply IH. now right.
Qed.

Lemma word_after_cust_In (words : list string) (found : string) :
  word_after_cust words = Some found -> In found words.
Proof.
  induction words as [|word rest IH]; [discriminate|].
  cbn [word_after_cust]. destruct (_ && _)%bool.
  - destruct rest as [|next rest']; [discriminate|]. intros [= <-]. right. now left.
  - intros H. right. now apply IH.
Qed.

(** The id is the default, or a token of some message. *)
Lemma extract_default_or_token (messages : list message) :
  _extract_customer_id messages = "CUST001" \/
  exists msg, In msg messages /\ In (_extract_customer_id messages) (tokens msg).
Proof.
  induction messages as [|msg rest IH]; [now left|].
  rewrite extract_cons. destruct (word_after_cust (tokens msg)) as [found|] eqn:E.
  - right. exists msg. split; [now left|]. now apply word_after_cust_In.
  - destruct IH as [IH | [m [Hm Hin]]]; [now left|].
    right. exists m. split; [now right|exact Hin].
Qed.

Lemma token_shape (msg : message) (w : string) :
  In w (tokens msg) -> lowered w /\ w <> "" /\ spaceless w = true.
Proof.
  unfold tokens. destruct (content msg) as [[text|r]|]; try contradiction.
  intros H. split; [|split].
  - apply (occurs_lowered w (lower text)); [now apply split_ws_occurs|apply lower_idem].
  - now apply (split_ws_nonempty (lower text)).
  - now apply (split_ws_spaceless (lower text)).
Qed.

End TokenFacts.

Module CleanerFacts.

Import Py Adapter Vocabulary StrFacts HelperFacts.

Lemma app_length (a b : string) :
  String.length (a +:+ b) = (String.length a + String.length b)%nat.
Proof.
  induction a as [|c a IH]; [reflexivity|]. rewrite app_cons. cbn [String.length].
  now rewrite IH.
Qed.

Lemma strip_length (s : string) : (String.length (strip s) <= String.length s)%nat.
Proof.
  destruct (strip_occurs s) as [a [b H]]. rewrite H at 2.
  rewrite !app_length. lia.
Qed.

Lemma join_length_cons (x y : string) (rest : list string) :
  String.length (join nl (x :: y :: rest))
  = (String.length x + 1 + String.length (join nl (y :: rest)))%nat.
Proof. rewrite join_cons_cons, !app_length. cbn [nl String.length]. lia. Qed.

Lemma join_length_tail (x : string) (rest : list string) :
  (String.length (join nl rest) <= String.length (join nl (x :: rest)))%nat /\
  (String.length x <= String.length (join nl (x :: rest)))%nat.
Proof.
  destruct rest as [|y rest]; [simpl; lia|]. rewrite join_length_cons. lia.
Qed.

Lemma clean_lines_length (lines : list string) :
  (String.length (join nl (clean_lines lines)) <= String.length (join nl lines))%nat.
Proof.
  induction lines as [|line rest IH]; [reflexivity|].
  pose proof (join_length_tail line rest) as [Ht Hx].
  cbn [clean_lines]. destruct (is_log_line line); [lia|].
  destruct (is_response_line line); [|lia].
  pose proof (strip_length line) as Hs.
  destruct (clean_lines rest) as [|k kept] eqn:E.
  - change (join nl [strip line]) with (strip line). lia.
  - destruct rest as [|y rest']; [discriminate|].
    rewrite !join_length_cons. lia.
Qed.

(** Cleaning never makes a reply longer. *)
Lemma format_no_longer (response : string) :
  (String.length (_format_crew_response response) <= String.length response)%nat.
Proof.
  unfold _format_crew_response. fold nl.
  pose proof (clean_lines_length (split response nl)) as H. rewrite join_split in H.
  destruct (clean_lines (split response nl)); [lia|exact H].
Qed.

(** When a line is kept, the lines of the reply are the kept lines. *)
Lemma format_lines (response : string) :
  clean_lines (split response nl) <> [] ->
  split (_format_crew_response response) nl = clean_lines (split response nl).
Proof.
  intros H. unfold _format_crew_response. fold nl.
  destruct (clean_lines (split response nl)) as [|x kept] eqn:E; [contradiction|].
  apply split_join; [discriminate|]. rewrite <- E.
  apply List.Forall_forall. intros y Hy.
  destruct (clean_lines_In _ _ Hy) as [line [Hin [_ [_ ->]]]].
  apply (one_line_occurs _ line (strip_occurs line)).
  pose proof (split_one_line response) as Hs. rewrite List.Forall_forall in Hs. now apply Hs.
Qed.

End CleanerFacts.

Module ToolFacts.

Import Py Adapter Tools Vocabulary MoreVocabulary StrFacts HelperFacts TokenFacts.
Import KnowledgeBaseTool.

Lemma search_category_none (category : string) (responses : list (string * string)) (q : string) :
  responses <> [] ->
  search_category category responses q = None <->
  contains q category = false /\ Forall (fun key => contains q key = false) (map fst responses).
Proof.
  induction responses as [|[key response] rest IH]; [contradiction|]. intros _.
  cbn [search_category map fst]. destruct (contains q key) eqn:Ek; cbn [orb].
  - split; [discriminate|]. intros [_ H]. inversion H; subst. congruence.
  - destruct (contains q category) eqn:Ec.
    + split; [discriminate|]. intros [H _]. discriminate.
    + destruct rest as [|entry rest'].
      * cbn [search_category map]. split; [intros _|reflexivity].
        split; [reflexivity|]. repeat constructor. exact Ek.
      * rewrite IH by discriminate. split.
        -- intros [_ H]. split; [reflexivity|]. constructor; assumption.
        -- intros [_ H]. inversion H; subst. split; [reflexivity|assumption].
Qed.

Lemma search_none (kb : list (string * list (string * string))) (q : string) :
  Forall (fun entry => snd entry <> []) kb ->
  search kb q = None <-> Forall (fun keyword => contains q keyword = false) (kb_keywords kb).
Proof.
  induction 1 as [|[category responses] rest Hne _ IH].
  - split; [constructor|reflexivity].
  - cbn [search kb_keywords flat_map fst snd]. cbn [snd] in Hne.
    rewrite Forall_app, Forall_cons. 
    destruct (search_category category responses q) eqn:E.
    + split; [discriminate|]. intros [[Hc Hk] _].
      assert (search_category category responses q = None) as H
        by (apply search_category_none; auto).
      congruence.
    + apply search_category_none in E as [Hc Hk]; [|exact Hne].
      rewrite IH. split; [intros H; split; [split|]; assumption|now intros [_ H]].
Qed.

Lemma run_not_found_iff (query : string) :
  _run query = not_found <->
  Forall (fun keyword => contains (lower query) keyword = false) (kb_keywords kb_responses).
Proof.
  unfold _run. rewrite <- search_none by (repeat constructor; discriminate).
  destruct (search kb_responses (lower query)); [|tauto].
  split; discriminate.
Qed.


Lemma billing_always_refund (query : string) :
  contains (lower query) "billing" = true -> _run query = refund_answer.
Proof.
  intros H. unfold _run. cbn [kb_responses search search_category].
  rewrite H, orb_true_r. reflexivity.
Qed.

Lemma other_billing_answers (query : string) :
  _run query = payment_answer \/ _run query = subscription_answer ->
  contains (lower query) "billing" = false /\ contains (lower query) "refund" = false.
Proof.
  unfold _run. cbn [kb_responses search search_category].
  destruct (contains (lower query) "billing"), (contains (lower query) "refund");
    cbn [orb]; try (intros [H | H]; discriminate H).
  intros _. now split.
Qed.

Lemma lookup_unknown (customer_id : string) :
  customer_id <> "CUST001" -> customer_id <> "CUST002" ->
  CustomerDataTool._run customer_id = "Customer " +:+ customer_id +:+ " not found in database.".
Proof.
  intros H1 H2. unfold CustomerDataTool._run, CustomerDataTool.customer_data.
  rewrite lookup_insert_ne by congruence. rewrite lookup_singleton_ne by congruence.
  reflexivity.
Qed.

Lemma extracted_id_unknown (messages : list message) :
  _extract_customer_id messages = "CUST001" \/
  CustomerDataTool._run (_extract_customer_id messages)
  = "Customer " +:+ _extract_customer_id messages +:+ " not found in database.".
Proof.
  destruct (extract_default_or_token messages) as [H | [msg [_ Hin]]]; [now left|].
  right. apply token_shape in Hin as [Hl _].
  apply lookup_unknown; intros E; rewrite E in Hl; discriminate Hl.
Qed.

End ToolFacts.

Module AgentFacts.

Import Py Adapter Vocabulary MoreVocabulary StrFacts.

Section AgentFacts.
Context {World Crew Agent : Type} (ext : agent_externals World Crew Agent).
Context (agent_role : string).

Lemma agent_call_of_body input (st : agent_state World Crew Agent) :
  agent_call ext agent_role input st
  = match agent_call_body ext agent_role input st with
    | (Ok response, st') => (Ok response, st')
    | (Raise e, st') => (Ok (agent_error e), st')
    | (RaiseBase e, st') => (RaiseBase e, st')
    end.
Proof. reflexivity. Qed.

Lemma initialized_stays (st : agent_state World Crew Agent) crew :
  self_crew st = Some crew -> _initialize_if_needed ext agent_role st = (Ok tt, st).
Proof. intros H. unfold _initialize_if_needed. now rewrite H. Qed.

Lemma find_none_iff {A} (p : A -> bool) (l : list A) :
  List.find p l = None <-> Forall (fun x => p x = false) l.
Proof.
  induction l as [|x l IH]; [split; [constructor|reflexivity]|].
  cbn [List.find]. destruct (p x) eqn:E.
  - split; [discriminate|]. intros H. inversion H; congruence.
  - rewrite IH. split; [now constructor|now inversion 1].
Qed.

Lemma initialize_role_missing (st : agent_state World Crew Agent) crew w :
  self_crew st = None -> self_agent st = None ->
  agent_crew_class ext (agent_world st) = (Ok crew, w) ->
  Forall (fun agent => role_of ext agent <> agent_role) (crew_agents ext crew) ->
  _initialize_if_needed ext agent_role st
  = (Raise (role_not_found agent_role),
     {| self_crew := Some crew; self_agent := None; agent_world := w |}).
Proof.
  intros Hc Ha Hk Hr. unfold _initialize_if_needed. rewrite Hc, Hk.
  assert (List.find (fun agent => String.eqb (role_of ext agent) agent_role)
            (crew_agents ext crew) = None) as ->.
  { apply find_none_iff. eapply List.Forall_impl; [|exact Hr].
    intros a Hne. now apply String.eqb_neq. }
  now rewrite Ha.
Qed.

Lemma simulate_quotes (message : string) :
  occurs_in ("'" +:+ message +:+ "'") (_simulate_agent_response agent_role message).
Proof.
  unfold _simulate_agent_response, role_responses. cbn [List.find fst snd].
  repeat match goal with
         | |- context [String.eqb ?a agent_role] => destruct (String.eqb a agent_role)
         end.
  - exists "I'll help route your inquiry: ",
      ". Let me determine the best specialist for your needs.".
    now rewrite !app_assoc.
  - exists "I'll help you with this technical issue: ",
      ". Let me provide a step-by-step solution.".
    now rewrite !app_assoc.
  - exists "I'll assist you with this billing matter: ",
      ". Let me review your account and resolve this.".
    now rewrite !app_assoc.
  - exists "I'll personally handle this escalated issue: ",
      ". Let me ensure we find the best solution for you.".
    now rewrite !app_assoc.
  - exists ("As a " +:+ agent_role +:+ ", I'll help you with: "), "".
    now rewrite !app_assoc, app_nil_r.
Qed.

End AgentFacts.
End AgentFacts.

(* ===================================================================== *)
(** ** Facts about the spans of the quality judge's transcript *)
(* ===================================================================== *)

Module SpanFacts.

Import Py Judges Vocabulary StrFacts OwnTranscriptFacts CleanerFacts.
Import CustomerServiceQualityJudge.

(** **** Word counts *)

Lemma cons_first_bump c l : length (cons_first c l) = bump (length l).
Proof. now destruct l. Qed.

Lemma split_ws_blank w : blank w = true -> split_ws w = [].
Proof.
  induction w as [|c w IH]; [reflexivity|]. cbn [blank split_ws].
  intros H. apply andb_true_iff in H as [-> H]. now apply IH.
Qed.

(** White space at the end adds no word. *)
Lemma words_before_blank (a w : string) :
  blank w = true -> length (split_ws (a +:+ w)) = length (split_ws a).
Proof.
  intros Hw. induction a as [|c a IH]; push_app.
  - now rewrite (split_ws_blank w Hw).
  - cbn [split_ws]. destruct (isspace c); [exact IH|].
    destruct a as [|d a]; push_app.
    + destruct w as [|d w]; [reflexivity|]. cbn [blank] in Hw.
      apply andb_true_iff in Hw as [Hd Hw]. rewrite Hd.
      rewrite (split_ws_blank (String d w)); [reflexivity|].
      cbn [blank]. now rewrite Hd, Hw.
    + destruct (isspace d).
      * cbn [length]. now rewrite IH.
      * rewrite !cons_first_bump. now rewrite IH.
Qed.

(** **** The scan between two matches *)

Lemma findall_other (c : ascii) (s : string) :
  Ascii.eqb "A" c = false -> findall_go 0 (String c s) = findall_go 0 s.
Proof.
  intros H. cbn [findall_go]. unfold agent_span. cbn [startswith]. now rewrite H.
Qed.

Lemma findall_skip (p s : string) :
  findall_go (String.length p) (p +:+ s) = findall_go 0 s.
Proof. induction p as [|c p IH]; push_app; [reflexivity|exact IH]. Qed.

(** A marker without a newline that begins before a newline lies before it. *)
Lemma startswith_before (x s sub : string) :
  one_line sub -> s = "" \/ (exists s', s = String newline s') ->
  startswith (x +:+ s) sub = true -> startswith x sub = true.
Proof.
  intros Hsub [-> | [s' ->]].
  - now rewrite app_nil_r.
  - change (String newline s') with (nl +:+ s'). now apply startswith_before_newline.
Qed.

Lemma agent_marker_one_line : one_line "AGENT: ".
Proof. repeat (apply one_line_cons; split; [discriminate|]). apply one_line_nil. Qed.

Lemma customer_marker_one_line : one_line "CUSTOMER:".
Proof. repeat (apply one_line_cons; split; [discriminate|]). apply one_line_nil. Qed.

Lemma contains_cons_false c s sub :
  contains (String c s) sub = false ->
  startswith (String c s) sub = false /\ contains s sub = false.
Proof. cbn [contains]. intros H. now apply orb_false_iff in H. Qed.

(** A user content without the marker starts no match. *)
Lemma findall_user_content (cu s : string) :
  contains cu "AGENT: " = false -> s = "" \/ (exists s', s = String newline s') ->
  findall_go 0 (cu +:+ s) = findall_go 0 s.
Proof.
  intros Hc Hs. induction cu as [|c cu IH]; push_app; [reflexivity|].
  apply contains_cons_false in Hc as [H1 H2].
  cbn [findall_go]. unfold agent_span.
  destruct (startswith (String c (cu +:+ s)) "AGENT: ") eqn:E.
  - rewrite <- app_cons in E.
    rewrite (startswith_before _ _ _ agent_marker_one_line Hs E) in H1. discriminate.
  - now apply IH.
Qed.

Lemma findall_user_last (cu : string) :
  contains cu "AGENT: " = false -> findall_go 0 ("CUSTOMER: " +:+ cu) = [].
Proof.
  intros H. rewrite !app_cons, app_nil_l.
  rewrite !findall_other by reflexivity.
  rewrite <- (app_nil_r cu). rewrite (findall_user_content cu "" H); [reflexivity|now left].
Qed.

Lemma findall_user_turn (cu s : string) :
  contains cu "AGENT: " = false ->
  findall_go 0 (("CUSTOMER: " +:+ cu) +:+ gap +:+ s) = findall_go 0 s.
Proof.
  intros H. rewrite app_assoc. rewrite !app_cons, app_nil_l.
  rewrite !findall_other by reflexivity.
  rewrite (findall_user_content cu _ H).
  - unfold gap. rewrite !app_cons, app_nil_l. now rewrite !findall_other by reflexivity.
  - right. unfold gap. rewrite app_cons. eauto.
Qed.

(** **** A match *)

Lemma substring_all (s : string) : String.substring 0 (String.length s) s = s.
Proof. induction s as [|c s IH]; [reflexivity|]. cbn [String.length String.substring]. now rewrite IH. Qed.

Lemma agent_span_marker (x : string) :
  agent_span ("AGENT: " +:+ x)
  = match x with
    | EmptyString => None
    | String c rest => Some (String c (span_more rest))
    end.
Proof.
  unfold agent_span. rewrite !app_cons, app_nil_l.
  change (startswith _ "AGENT: ") with true. cbn iota.
  cbn [String.length String.substring Nat.sub]. rewrite Nat.sub_0_r.
  now rewrite substring_all.
Qed.

Lemma span_more_stopped (t : string) : span_stop t = true -> span_more t = "".
Proof. intros H. destruct t as [|d t]; [reflexivity|]. cbn [span_more]. now rewrite H. Qed.

Lemma span_more_newline (s : string) :
  s <> "" -> span_more (String newline s) = String newline (span_more s).
Proof.
  intros H. destruct s as [|a s]; [contradiction|].
  cbn [span_more]. change (span_stop (String newline (String a s))) with false. reflexivity.
Qed.

(** The span of a reply that is followed by a customer turn runs up to the
    marker of that turn. *)
Lemma span_more_turn (x t : string) :
  contains x "CUSTOMER:" = false -> startswith t "CUSTOMER:" = true ->
  span_more (x +:+ gap +:+ t) = x +:+ gap.
Proof.
  intros H Ht. induction x as [|c x IH].
  - rewrite !app_nil_l. unfold gap. rewrite !app_cons, !app_nil_l.
    assert (Hne : t <> "") by (intros ->; discriminate).
    rewrite span_more_newline by discriminate. rewrite (span_more_newline t Hne).
    rewrite span_more_stopped; [reflexivity|]. unfold span_stop. now rewrite Ht.
  - apply contains_cons_false in H as [H1 H2]. rewrite app_cons.
    cbn [span_more]. unfold span_stop.
    destruct (startswith (String c (x +:+ gap +:+ t)) "CUSTOMER:") eqn:E.
    + rewrite <- app_cons in E.
      assert (Hs : gap +:+ t = "" \/ exists s', gap +:+ t = String newline s')
        by (right; unfold gap; rewrite app_cons; eauto).
      rewrite (startswith_before _ _ _ customer_marker_one_line Hs E) in H1. discriminate.
    + cbn [orb]. assert (String.eqb (String c (x +:+ gap +:+ t)) "" = false)
        as -> by reflexivity.
      assert (String.eqb (String c (x +:+ gap +:+ t)) (String newline "") = false) as ->.
      { apply String.eqb_neq. intros Heq. injection Heq as _ Heq.
        destruct x; unfold gap in Heq; rewrite ?app_cons, ?app_nil_l in Heq; discriminate. }
      cbn [orb]. now rewrite (IH H2).
Qed.

(** The span of the last reply is the reply, but for a final newline. *)
Lemma span_more_last (x : string) :
  contains x "CUSTOMER:" = false ->
  exists e, (e = "" \/ e = nl) /\ x = span_more x +:+ e.
Proof.
  intros H. induction x as [|c x IH].
  - exists "". split; [now left|reflexivity].
  - apply contains_cons_false in H as [H1 H2]. cbn [span_more]. unfold span_stop.
    rewrite H1. cbn [orb].
    assert (String.eqb (String c x) "" = false) as -> by reflexivity. cbn [orb].
    destruct (String.eqb (String c x) (String newline "")) eqn:E.
    + apply String.eqb_eq in E. rewrite E. exists nl. split; [now right|reflexivity].
    + destruct (IH H2) as [e [He Hx]]. exists e. split; [exact He|].
      rewrite app_cons. now rewrite <- Hx.
Qed.

Lemma findall_match (span remainder : string) c rest :
  span = String c (span_more rest) ->
  String c rest = span +:+ remainder ->
  findall_go 0 ("AGENT: " +:+ String c rest) = span :: findall_go 0 remainder.
Proof.
  intros Hs Hx.
  pose proof (agent_span_marker (String c rest)) as Ha. cbn iota in Ha. rewrite <- Hs in Ha.
  change ("AGENT: " +:+ String c rest) with (String "A" ("GENT: " +:+ String c rest)) in *.
  cbn [findall_go]. rewrite Ha. f_equal. rewrite Hx.
  rewrite <- (findall_skip ("GENT: " +:+ span) remainder).
  rewrite app_length, app_assoc. reflexivity.
Qed.

Lemma findall_reply_turn (ca t : string) :
  ca <> "" -> contains ca "CUSTOMER:" = false -> startswith t "CUSTOMER:" = true ->
  findall_go 0 (("AGENT: " +:+ ca) +:+ gap +:+ t) = (ca +:+ gap) :: findall_go 0 t.
Proof.
  intros Hne H Ht. destruct ca as [|c ca]; [contradiction|].
  apply contains_cons_false in H as [_ H].
  replace (("AGENT: " +:+ String c ca) +:+ gap +:+ t)
    with ("AGENT: " +:+ String c (ca +:+ gap +:+ t)) by now rewrite app_assoc.
  apply findall_match.
  - now rewrite (span_more_turn ca t H Ht).
  - change (String c ca +:+ gap) with (String c (ca +:+ gap)).
    change (String c (ca +:+ gap) +:+ t) with (String c ((ca +:+ gap) +:+ t)).
    now rewrite app_assoc.
Qed.

Lemma findall_reply_last (ca : string) :
  ca <> "" -> contains ca "CUSTOMER:" = false ->
  exists span, findall_go 0 ("AGENT: " +:+ ca) = [span] /\
    length (split_ws span) = length (split_ws ca).
Proof.
  intros Hne H. destruct ca as [|c ca]; [contradiction|].
  apply contains_cons_false in H as [_ H].
  destruct (span_more_last ca H) as [e [He Hx]].
  exists (String c (span_more ca)). split.
  - rewrite (findall_match (String c (span_more ca)) e c ca eq_refl).
    + now destruct He as [-> | ->].
    + rewrite app_cons. now rewrite <- Hx.
  - rewrite Hx at 2. rewrite <- app_cons. symmetry. apply words_before_blank.
    now destruct He as [-> | ->].
Qed.

(** **** The transcript of messages taken in turns *)

Lemma user_not_assistant msg : is_user msg = true -> is_assistant msg = false.
Proof.
  unfold is_user, is_assistant. intros H. apply String.eqb_eq in H. now rewrite H.
Qed.

Lemma extract_spoken (messages : list message) :
  _extract_conversation messages = join gap (map text (spoken messages)).
Proof.
  unfold _extract_conversation. fold gap. f_equal.
  induction messages as [|msg rest IH]; [reflexivity|].
  cbn [flat_map spoken List.filter]. fold (spoken rest). rewrite IH.
  unfold is_user at 1. unfold is_assistant at 1.
  destruct (String.eqb (get_role msg) "user") eqn:E'; cbn [orb].
  - cbn [map]. unfold text, is_user. now rewrite E'.
  - destruct (String.eqb (get_role msg) "assistant") eqn:E; [|reflexivity].
    cbn [map]. unfold text, is_user. now rewrite E'.
Qed.

Lemma replies_spoken (messages : list message) :
  reply_lengths (spoken messages) = reply_lengths messages.
Proof.
  unfold reply_lengths. f_equal.
  induction messages as [|msg rest IH]; [reflexivity|].
  cbn [spoken List.filter]. fold (spoken rest).
  destruct (is_assistant msg) eqn:E.
  - rewrite orb_true_r. cbn [List.filter]. now rewrite E, IH.
  - rewrite orb_false_r. destruct (is_user msg); [|exact IH].
    cbn [List.filter]. now rewrite E.
Qed.

Lemma spoken_all (messages : list message) :
  forallb is_spoken (spoken messages) = true.
Proof.
  apply forallb_forall. intros msg H. unfold spoken in H.
  now apply filter_In in H as [_ H].
Qed.

Lemma join_head (x : string) (rest : list string) : exists r, join gap (x :: rest) = x +:+ r.
Proof.
  destruct rest as [|y rest]; [exists ""; cbn [join]; now rewrite app_nil_r|].
  eexists. apply join_cons_cons.
Qed.

(** The matches of the pattern are the replies, one for one, each with the
    words of its reply. *)
Lemma spans_in_turns (l : list message) :
  forallb is_spoken l = true -> in_turns l = true -> forallb plain l = true ->
  map (fun span => length (split_ws span)) (findall_go 0 (join gap (map text l)))
  = reply_lengths l.
Proof.
  induction l as [|m l IH]; [reflexivity|].
  cbn [forallb in_turns]. intros Hs Ht Hp.
  apply andb_true_iff in Hs as [Hm Hs]. apply andb_true_iff in Ht as [Hn Ht].
  apply andb_true_iff in Hp as [Hpm Hp]. specialize (IH Hs Ht Hp).
  unfold reply_lengths in *. cbn [map List.filter]. unfold plain in Hpm. unfold text at 1.
  destruct (is_user m) eqn:Hu.
  - rewrite (user_not_assistant m Hu) in *. apply negb_true_iff in Hpm.
    destruct l as [|m' l].
    + cbn [map join]. now rewrite (findall_user_last _ Hpm).
    + cbn [map]. rewrite join_cons_cons. rewrite (findall_user_turn _ _ Hpm). exact IH.
  - unfold is_spoken in Hm. rewrite Hu in Hm. cbn [orb] in Hm. rewrite Hm in *.
    apply andb_true_iff in Hpm as [Hne Hc].
    apply negb_true_iff in Hne, Hc. apply String.eqb_neq in Hne.
    destruct l as [|m' l].
    + cbn [map join]. destruct (findall_reply_last _ Hne Hc) as [span [-> Hw]].
      cbn [map List.filter]. now rewrite Hw.
    + cbn [andb] in Hn. apply negb_true_iff in Hn.
      assert (Hu' : is_user m' = true).
      { cbn [forallb] in Hs. apply andb_true_iff in Hs as [Hs _].
        unfold is_spoken in Hs. rewrite Hn in Hs. now rewrite orb_false_r in Hs. }
      cbn [map] in *. rewrite join_cons_cons.
      destruct (join_head (text m') (map text l)) as [r Hr].
      rewrite findall_reply_turn; [|exact Hne|exact Hc|].
      * cbn [map]. rewrite IH. f_equal. now apply words_before_blank.
      * rewrite Hr. unfold text. rewrite Hu'. rewrite app_assoc.
        apply startswith_iff. exists (String " " (format_content m' +:+ r)). reflexivity.
Qed.

Lemma total_words_sum (spans : list string) :
  total_words spans = sum_list (map (fun span => length (split_ws span)) spans).
Proof.
  induction spans as [|s spans IH]; [reflexivity|].
  unfold total_words in *. cbn [foldr map sum_list]. now rewrite IH.
Qed.

Lemma avg_of_mean (spans : list string) (mean : nat) :
  spans <> [] -> total_words spans = (mean * length spans)%nat ->
  (avg_length spans == inject_Z (Z.of_nat mean))%Q.
Proof.
  intros Hne Hsum. unfold avg_length. rewrite Hsum.
  destruct spans as [|s spans]; [contradiction|]. cbn [length].
  unfold Qeq, inject_Z. cbn [Qnum Qden].
  rewrite <- Pos.of_nat_succ, Znat.Zpos_P_of_succ_nat. lia.
Qed.

(** The buckets of the means 30 and 3. *)
Lemma communication_of_mean (conversation : string) :
  findall_agent_spans conversation <> [] ->
  ((avg_length (findall_agent_spans conversation) == 30)%Q ->
   _evaluate_communication conversation = 8%float) /\
  ((avg_length (findall_agent_spans conversation) == 3)%Q ->
   _evaluate_communication conversation = 4%float).
Proof.
  unfold _evaluate_communication.
  destruct (findall_agent_spans conversation) as [|span spans] eqn:E; [contradiction|].
  intros _. generalize (avg_length (span :: spans)). intros avg.
  split; intros Havg.
  - assert (Qle_bool 10 avg = true) as -> by (apply Qle_bool_iff; rewrite Havg; discriminate).
    assert (Qle_bool avg 50 = true) as -> by (apply Qle_bool_iff; rewrite Havg; discriminate).
    reflexivity.
  - assert (Qle_bool 10 avg = false) as ->.
    { destruct (Qle_bool 10 avg) eqn:Hq; [|reflexivity].
      apply Qle_bool_iff in Hq. rewrite Havg in Hq. exfalso. now apply Hq. }
    assert (Qle_bool 5 avg = false) as ->.
    { destruct (Qle_bool 5 avg) eqn:Hq; [|reflexivity].
      apply Qle_bool_iff in Hq. rewrite Havg in Hq. exfalso. now apply Hq. }
    assert (Qle_bool avg 50 = true) as -> by (apply Qle_bool_iff; rewrite Havg; discriminate).
    reflexivity.
Qed.

(** The spans of a transcript whose messages are taken in turns. *)
Lemma spans_of_messages (messages : list message) :
  in_turns (spoken messages) = true -> forallb plain (spoken messages) = true ->
  map (fun span => length (split_ws span))
    (findall_agent_spans (_extract_conversation messages))
  = reply_lengths messages.
Proof.
  intros Ht Hp. rewrite extract_spoken. unfold findall_agent_spans.
  rewrite (spans_in_turns _ (spoken_all messages) Ht Hp). apply replies_spoken.
Qed.

End SpanFacts.

(* ===================================================================== *)
(** ** The model on small inputs *)
(* ===================================================================== *)

Module Tests.

Import Py Judges Adapter Vocabulary.

Example split_on_word :
  split "I want a manager, a manager now" "manager" = ["I want a "; ", a "; " now"].
Proof. reflexivity. Qed.

Example split_lines :
  split ("a" +:+ nl +:+ nl +:+ "b" +:+ nl) nl = ["a"; ""; "b"; ""].
Proof. reflexivity. Qed.

Example split_words :
  split_ws "  my cust  id is 4477 " = ["my"; "cust"; "id"; "is"; "4477"].
Proof. reflexivity. Qed.

Example strip_both_ends : strip "  Hello Sir  " = "Hello Sir".
Proof. reflexivity. Qed.

Example lower_ascii : lower "Final Answer: OK" = "final answer: ok".
Proof. reflexivity. Qed.

Example count_without_overlap : count "AGENT:AGENT: xAGENT" "AGENT:" = 2%nat.
Proof. reflexivity. Qed.

(** Two assistant messages in a row form one span, which runs up to the next
    customer marker. *)
Example spans_run_to_the_customer :
  CustomerServiceQualityJudge.findall_agent_spans
    (CustomerServiceQualityJudge._extract_conversation
       [user_msg "hi"; assistant_msg "hello there"; assistant_msg "more";
        user_msg "ok"; assistant_msg "bye"])
  = ["hello there" +:+ nl +:+ nl +:+ "AGENT: more" +:+ nl +:+ nl; "bye"].
Proof. vm_compute. reflexivity. Qed.

Example decimal_constants :
  (PrimFloat.eqb f0_2 (2 / 10) && PrimFloat.eqb f0_3 (3 / 10)
   && PrimFloat.eqb f0_4 (4 / 10))%float%bool = true.
Proof. reflexivity. Qed.

Example professionalism_sample :
  CustomerServiceQualityJudge._evaluate_professionalism "please, whatever"
  = (7 + f0_3 - 1)%float.
Proof. reflexivity. Qed.

Example cleaner_sample :
  _format_crew_response Mock.logged = "Hello Sir" +:+ nl +:+ "Restart the app".
Proof. vm_compute. reflexivity. Qed.

Example demo_of_the_module :
  call Mock.echo_crew (Mock.MockAgentInput [user_msg "I can't log into my account"]) Mock.fresh
  = (Ok "Hello CUST001",
     {| conversation_history :=
          {[ "test_thread_001" :=
               {| ctx_crew := tt;
                  ctx_messages := [user_msg "I can't log into my account"];
                  ctx_context := {[ "customer_id" := "CUST001";
                                    "last_response" := "Hello CUST001" ]} |} ]};
        world := 1%nat;
        console := [];
        responder_calls := [("I can't log into my account", "CUST001")] |}).
Proof. vm_compute. reflexivity. Qed.

Example turn_records_context :
  ctx_context <$>
    (conversation_history (snd (call Mock.echo_crew (Mock.turn "t" "my cust id is 4477") Mock.fresh))
     !! "t")
  = Some ({[ "customer_id" := "id"; "last_response" := "Hello id" ]} : gmap string string).
Proof. vm_compute. reflexivity. Qed.

End Tests.

(* ===================================================================== *)
(** ** The claims *)
(* ===================================================================== *)

Import Py Judges Adapter Vocabulary.
Import StrFacts ScoreFacts HelperFacts AdapterFacts CallFacts.
Import CustomerServiceQualityJudge TechnicalAccuracyJudge EscalationAppropriatenessJudge.


(** *** C1 *)





(** *** C2 *)

(** C2: for every transcript each of the ten heuristic sub-scores lies in
    the closed interval from 1.0 to 10.0. *)
Theorem C2_sub_scores_in_range (conversation : string) :
  in_1_10 (_evaluate_empathy conversation) = true /\
  in_1_10 (_evaluate_professionalism conversation) = true /\
  in_1_10 (_evaluate_listening conversation) = true /\
  in_1_10 (_evaluate_communication conversation) = true /\
  in_1_10 (_evaluate_problem_solving conversation) = true /\
  in_1_10 (_evaluate_customer_focus conversation) = true /\
  in_1_10 (_evaluate_technical_accuracy conversation) = true /\
  in_1_10 (_evaluate_solution_quality conversation) = true /\
  in_1_10 (_evaluate_guidance_clarity conversation) = true /\
  in_1_10 (_calculate_escalation_score conversation) = true.
Proof.
  repeat split;
    auto using empathy_range, professionalism_range, listening_range,
      communication_range, problem_solving_range, customer_focus_range,
      technical_accuracy_range, solution_quality_range, guidance_clarity_range,
      escalation_score_range.
Qed.

(** *** C3 *)

(** C3, as stated, fails on its own example: the token after the first
    token that contains cust is the word id, not the number. *)
Lemma C3_example_extracts_id :
  _extract_customer_id [user_msg "my cust id is 4477"] = "id" /\
  _extract_customer_id [user_msg "my cust id is 4477"] <> "4477".
Proof. split; [reflexivity|]. vm_compute. discriminate. Qed.

(** C3 (amended): customer-id extraction returns the default CUST001 when in
    no message a token containing cust is followed by another token;
    otherwise it returns the lower-cased token that immediately follows the
    first token containing cust, in the first message where such a token has
    a successor. For the single message "my cust id is 4477" that token is
    "id". *)
Theorem C3_customer_id_extraction :
  (forall messages,
     Forall (fun msg => no_cust_pair (tokens msg)) messages ->
     _extract_customer_id messages = "CUST001") /\
  (forall before msg after found,
     Forall (fun m => no_cust_pair (tokens m)) before ->
     follows_first_cust (tokens msg) found ->
     _extract_customer_id (before ++ msg :: after) = found) /\
  _extract_customer_id [user_msg "my cust id is 4477"] = "id".
Proof.
  split; [exact extract_default|]. split; [intros; now apply extract_found|reflexivity].
Qed.

Lemma C3_witness :
  _extract_customer_id [user_msg "Hello there"; assistant_msg "Dear Customer"] = "CUST001" /\
  _extract_customer_id
    ([user_msg "Hello there"] ++ user_msg "My CUSTOMER number: AB12" :: []) = "number:".
Proof.
  split.
  - apply (proj1 C3_customer_id_extraction).
    repeat constructor; intros [|[|[|i]]] word H Hc; try reflexivity;
      vm_compute in H; try discriminate H; injection H as <-; vm_compute in Hc;
      discriminate Hc.
  - apply (proj1 (proj2 C3_customer_id_extraction)).
    + repeat constructor; intros [|[|[|i]]] word H Hc; try reflexivity;
        vm_compute in H; try discriminate H; injection H as <-; vm_compute in Hc;
        discriminate Hc.
    + exists 1%nat, "customer". repeat split.
      intros [|j] word' Hj H; [|lia]. vm_compute in H. injection H as <-. reflexivity.
Defined.

(** *** C4 *)

(** C4: the verdicts the code gives on message lists with one, three and six
    assistant turns before the first mention of the manager. The escalation
    judge's own transcript marks a turn with the role name, so the count of
    the marker AGENT: is zero and every verdict is the early one
    ([TimingFacts.timing_without_marker]); on the quality judge's transcript
    of the same messages, which carries that marker, three turns are
    appropriate and six are late ([TimingFacts.timing_by_marker_count]). *)
Theorem C4_escalation_timing_counts_no_turn :
  let verdict n :=
    _evaluate_escalation_timing
      (EscalationAppropriatenessJudge._extract_conversation (Mock.escalation n)) in
  let marked n :=
    _evaluate_escalation_timing
      (CustomerServiceQualityJudge._extract_conversation (Mock.escalation n)) in
  verdict 1%nat = "Too early - should attempt resolution first" /\
  verdict 3%nat = "Too early - should attempt resolution first" /\
  verdict 6%nat = "Too early - should attempt resolution first" /\
  marked 1%nat = "Too early - should attempt resolution first" /\
  marked 3%nat = "Appropriate timing" /\
  marked 6%nat = "Too late - should have escalated sooner".
Proof. vm_compute. repeat split. Qed.

(** *** C5 *)

(** C5: when every line of the response is discarded (a log line, a blank
    line, or one that starts with a bracket or two hashes) the cleaner
    returns the response unchanged; and its output is never empty when its
    input is not. *)
Theorem C5_cleaner_falls_back (response : string) :
  (Forall dropped (split response nl) -> _format_crew_response response = response) /\
  (response <> "" -> _format_crew_response response <> "").
Proof. split; [apply format_all_dropped|apply format_not_empty]. Qed.

Lemma C5_witness :
  _format_crew_response Mock.only_log = Mock.only_log /\
  _format_crew_response Mock.only_log <> "".
Proof.
  split.
  - apply (proj1 (C5_cleaner_falls_back Mock.only_log)).
    apply (Forall_forallb dropped droppedb); [exact droppedb_ok|].
    vm_compute. reflexivity.
  - apply (proj2 (C5_cleaner_falls_back Mock.only_log)). discriminate.
Defined.

(** *** C6 *)

(** C6, as stated, fails: a response with no log line is changed by the
    cleaner, and cleaning it twice differs from cleaning it once. *)
Lemma C6_cleaner_not_idempotent :
  Forall (fun line => is_log_line line = false) (split Mock.indented nl) /\
  _format_crew_response Mock.indented <> Mock.indented /\
  _format_crew_response (_format_crew_response Mock.indented)
  <> _format_crew_response Mock.indented.
Proof.
  split.
  - apply (Forall_forallb _ (fun line => negb (is_log_line line))).
    + intros line. apply negb_true_iff.
    + vm_compute. reflexivity.
  - split; vm_compute; discriminate.
Qed.

(** C6 (amended): the cleaner returns a response unchanged when each of its
    lines is free of log markers, non-empty, without white space at either
    end and without a leading bracket or double hash; and cleaning twice
    equals cleaning once whenever no line kept by the first pass starts,
    once stripped, with a bracket or a double hash. *)
Theorem C6_cleaner_idempotent_on_tidy (response : string) :
  (Forall tidy (split response nl) -> _format_crew_response response = response) /\
  (Forall unbracketed (clean_lines (split response nl)) ->
   _format_crew_response (_format_crew_response response)
   = _format_crew_response response).
Proof. split; [apply format_tidy|apply format_twice]. Qed.

Lemma C6_witness :
  _format_crew_response Mock.two_lines = Mock.two_lines /\
  _format_crew_response (_format_crew_response Mock.logged)
  = _format_crew_response Mock.logged.
Proof.
  split.
  - apply (proj1 (C6_cleaner_idempotent_on_tidy Mock.two_lines)).
    apply (Forall_forallb tidy tidyb); [exact tidyb_ok|].
    vm_compute. reflexivity.
  - apply (proj2 (C6_cleaner_idempotent_on_tidy Mock.logged)).
    apply (Forall_forallb unbracketed unbracketedb); [exact unbracketedb_ok|].
    vm_compute. reflexivity.
Defined.

(** *** C7 *)




(** *** C8 *)

(** C8, as stated, fails: two replies in a row are one span for the pattern,
    which runs to the next customer marker or to the end. With replies of
    30 words the only span has 61 words and the score is 6.0, not 8.0; with
    replies of 3 words it has 7 words and the score is 6.0, not 4.0. *)
Lemma C8_replies_in_a_row_merge :
  reply_lengths (Mock.two_replies 30) = [30; 30]%nat /\
  map (fun span => length (split_ws span))
    (findall_agent_spans
       (CustomerServiceQualityJudge._extract_conversation (Mock.two_replies 30)))
  = [61%nat] /\
  _evaluate_communication
    (CustomerServiceQualityJudge._extract_conversation (Mock.two_replies 30)) = 6%float /\
  reply_lengths (Mock.two_replies 3) = [3; 3]%nat /\
  _evaluate_communication
    (CustomerServiceQualityJudge._extract_conversation (Mock.two_replies 3)) = 6%float.
Proof. vm_compute. repeat split. Qed.

(** C8 (amended): when no reply of the assistant is directly followed by
    another one, no reply is empty or contains the customer marker and no
    message of the user contains the agent marker, the spans of the
    transcript are the replies, one for one and with their word counts; the
    communication score is then 5.0 when there is no reply, 8.0 when the
    replies have mean word count 30 and 4.0 when they have mean word count 3. *)
Theorem C8_communication_by_turns (messages : list message) :
  in_turns (spoken messages) = true ->
  forallb plain (spoken messages) = true ->
  map (fun span => length (split_ws span))
    (findall_agent_spans (CustomerServiceQualityJudge._extract_conversation messages))
  = reply_lengths messages /\
  (reply_lengths messages = [] ->
   _evaluate_communication (CustomerServiceQualityJudge._extract_conversation messages)
   = 5%float) /\
  (reply_lengths messages <> [] ->
   sum_list (reply_lengths messages) = (30 * length (reply_lengths messages))%nat ->
   _evaluate_communication (CustomerServiceQualityJudge._extract_conversation messages)
   = 8%float) /\
  (reply_lengths messages <> [] ->
   sum_list (reply_lengths messages) = (3 * length (reply_lengths messages))%nat ->
   _evaluate_communication (CustomerServiceQualityJudge._extract_conversation messages)
   = 4%float).
Proof.
  intros Ht Hp. pose proof (SpanFacts.spans_of_messages messages Ht Hp) as Hs.
  split; [exact Hs|].
  set (conversation := CustomerServiceQualityJudge._extract_conversation messages) in *.
  assert (Hlen : length (findall_agent_spans conversation) = length (reply_lengths messages))
    by (rewrite <- Hs; now rewrite length_map).
  assert (Hsum : total_words (findall_agent_spans conversation)
                 = sum_list (reply_lengths messages))
    by (rewrite SpanFacts.total_words_sum; now rewrite Hs).
  assert (Hne : reply_lengths messages <> [] -> findall_agent_spans conversation <> []).
  { intros H E. rewrite E in Hs. cbn [map] in Hs. now apply H. }
  split; [|split].
  - intros E. rewrite E in Hs. unfold _evaluate_communication.
    destruct (findall_agent_spans conversation); [reflexivity|discriminate].
  - intros H Hm. apply (SpanFacts.communication_of_mean conversation (Hne H)).
    apply (SpanFacts.avg_of_mean _ 30 (Hne H)). now rewrite Hsum, Hlen.
  - intros H Hm. apply (SpanFacts.communication_of_mean conversation (Hne H)).
    apply (SpanFacts.avg_of_mean _ 3 (Hne H)). now rewrite Hsum, Hlen.
Qed.

Lemma C8_witness :
  _evaluate_communication
    (CustomerServiceQualityJudge._extract_conversation (Mock.exchange 30)) = 8%float /\
  _evaluate_communication
    (CustomerServiceQualityJudge._extract_conversation (Mock.exchange 3)) = 4%float /\
  _evaluate_communication
    (CustomerServiceQualityJudge._extract_conversation [user_msg "hello"]) = 5%float.
Proof.
  split; [|split].
  - apply (proj1 (proj2 (proj2 (C8_communication_by_turns (Mock.exchange 30) eq_refl eq_refl)))).
    + vm_compute. discriminate.
    + vm_compute. reflexivity.
  - apply (proj2 (proj2 (proj2 (C8_communication_by_turns (Mock.exchange 3) eq_refl eq_refl)))).
    + vm_compute. discriminate.
    + vm_compute. reflexivity.
  - apply (proj1 (proj2 (C8_communication_by_turns [user_msg "hello"] eq_refl eq_refl))).
    reflexivity.
Defined.

(** *** C9 *)

(** C9, as stated, fails: after two calls on a thread, each with one new
    message, the thread has no entry at all when the crew cannot be
    constructed, and an empty list of messages when the latest user message
    cannot be read. *)
Lemma C9_two_calls_store_nothing :
  length (new_messages (Mock.turn "t" "hello")) = 1%nat /\
  length (new_messages (Mock.no_user_message "t" "hello" false)) = 1%nat /\
  conversation_history
    (snd (call Mock.unbuildable_crew (Mock.turn "t" "hello")
       (snd (call Mock.unbuildable_crew (Mock.turn "t" "hello") Mock.fresh))))
    !! "t" = None /\
  ctx_messages <$>
    (conversation_history
       (snd (call Mock.echo_crew (Mock.no_user_message "t" "hello" false)
          (snd (call Mock.echo_crew (Mock.no_user_message "t" "hello" false) Mock.fresh))))
     !! "t")
  = Some [].
Proof. repeat split; vm_compute; reflexivity. Qed.

(** C9 (amended): on a thread with no stored entry, two sequential calls in
    which the crew is constructed and the latest user message is read
    without an exception leave the stored messages equal to the new messages
    of the first call followed by those of the second, so of length 2 when
    each call brings exactly one; and a call on another thread leaves the
    entry of the thread (messages and context) unchanged. *)
Theorem C9_turns_accumulate_per_thread
    {World Crew : Type} (ext : externals World Crew) :
  (forall (first second : AgentInput) (st : state World Crew) crew w u1 u2,
     thread_id second = thread_id first ->
     conversation_history st !! thread_id first = None ->
     crew_class ext (world st) = (Ok crew, w) ->
     last_new_user_message_str first = Ok u1 ->
     last_new_user_message_str second = Ok u2 ->
     length (new_messages first) = 1%nat ->
     length (new_messages second) = 1%nat ->
     exists ctx,
       conversation_history (snd (call ext second (snd (call ext first st))))
         !! thread_id first = Some ctx /\
       ctx_messages ctx = new_messages first ++ new_messages second /\
       length (ctx_messages ctx) = 2%nat) /\
  (forall (input : AgentInput) (st : state World Crew) (t : string),
     thread_id input <> t ->
     conversation_history (snd (call ext input st)) !! t = conversation_history st !! t).
Proof.
  split.
  - intros first second st crew w u1 u2 Ht Hnone Hcrew Hu1 Hu2 Hl1 Hl2.
    pose proof (get_or_create_new ext (thread_id first) st crew w Hnone Hcrew) as Hc1.
    destruct (call_appends ext first st _ crew u1 (fresh_thread crew) Hc1 Hu1)
      as [ctx1 [H1 [Hm1 _]]]; [simpl; apply lookup_insert_eq|].
    simpl in Hm1.
    set (st1 := snd (call ext first st)) in *.
    rewrite <- Ht in H1.
    pose proof (get_or_create_known ext (thread_id second) st1 ctx1 H1) as Hc2.
    destruct (call_appends ext second st1 st1 (ctx_crew ctx1) u2 ctx1 Hc2 Hu2 H1)
      as [ctx2 [H2 [Hm2 _]]].
    exists ctx2. rewrite <- Ht. split; [exact H2|].
    rewrite Hm2, Hm1. split; [reflexivity|]. rewrite length_app. lia.
  - intros input st t Ht. exact (call_other_thread ext input t Ht st).
Qed.

Lemma C9_witness :
  (exists ctx,
     conversation_history
       (snd (call Mock.echo_crew (Mock.turn "t" "and again")
          (snd (call Mock.echo_crew (Mock.turn "t" "hello") Mock.fresh)))) !! "t" = Some ctx /\
     ctx_messages ctx = [user_msg "hello"] ++ [user_msg "and again"] /\
     length (ctx_messages ctx) = 2%nat) /\
  conversation_history
    (snd (call Mock.echo_crew (Mock.turn "other" "hi")
       (snd (call Mock.echo_crew (Mock.turn "t" "hello") Mock.fresh)))) !! "t"
  = conversation_history (snd (call Mock.echo_crew (Mock.turn "t" "hello") Mock.fresh)) !! "t".
Proof.
  split.
  - exact (proj1 (C9_turns_accumulate_per_thread Mock.echo_crew)
             (Mock.turn "t" "hello") (Mock.turn "t" "and again") Mock.fresh tt 1%nat
             "hello" "and again" eq_refl eq_refl eq_refl eq_refl eq_refl eq_refl eq_refl).
  - apply (proj2 (C9_turns_accumulate_per_thread Mock.echo_crew)). discriminate.
Defined.

(** *** C10 *)

(** C10: when a judgment request is the first call on a thread, and the crew
    is constructed, the latest user message read and the crew information
    obtained without an exception, the JSON summary has the customer id
    "unknown" and an empty last response, whatever the messages contain. *)
Theorem C10_first_judgment_knows_no_customer
    {World Crew : Type} (ext : externals World Crew)
    (input : AgentInput) (st : state World Crew) crew w user_message crew_info w' :
  judgment_request input = true ->
  conversation_history st !! thread_id input = None ->
  crew_class ext (world st) = (Ok crew, w) ->
  last_new_user_message_str input = Ok user_message ->
  get_crew_info ext crew w = (Ok crew_info, w') ->
  fst (call ext input st)
  = Ok (dumps (JObj
      [("conversation_summary", JStr (_format_conversation_context (messages input)));
       ("total_messages", JInt (Z.of_nat (length (messages input))));
       ("customer_id", JStr "unknown");
       ("last_response", JStr "");
       ("crew_info", crew_info)])).
Proof.
  intros Hj Hnone Hcrew Hu Hinfo.
  pose proof (get_or_create_new ext (thread_id input) st crew w Hnone Hcrew) as Hc.
  rewrite call_of_body, (call_body_reaches_branch ext input st _ crew user_message Hc Hu), Hj.
  rewrite (judgment_result ext input _ _ (extend_messages (new_messages input) (fresh_thread crew))).
  - simpl. rewrite Hinfo. reflexivity.
  - apply stored_lookup. simpl. apply lookup_insert_eq.
Qed.

Lemma C10_witness :
  _extract_customer_id (messages (Mock.judgment "t" "my cust id is 4477")) = "id" /\
  fst (call Mock.echo_crew (Mock.judgment "t" "my cust id is 4477") Mock.fresh)
  = Ok (dumps (JObj
      [("conversation_summary", JStr "Customer: my cust id is 4477");
       ("total_messages", JInt 1);
       ("customer_id", JStr "unknown");
       ("last_response", JStr "");
       ("crew_info", JObj [("agents", JList []); ("process", JStr "hierarchical");
                           ("tools", JList [JStr "knowledge_base_search"])])])).
Proof.
  split; [reflexivity|].
  exact (C10_first_judgment_knows_no_customer Mock.echo_crew
           (Mock.judgment "t" "my cust id is 4477") Mock.fresh tt 1%nat
           "my cust id is 4477" _ 1%nat eq_refl eq_refl eq_refl eq_refl eq_refl).
Defined.

(* ===================================================================== *)
(** ** Further properties *)
(* ===================================================================== *)

Import Tools MoreVocabulary.
Import SplitFacts JudgeFacts AggregateFacts OwnTranscriptFacts TurnFacts TokenFacts
  CleanerFacts ToolFacts AgentFacts.

(** *** The conversation adapter *)

(** X1: whatever a call does, on whatever thread, an entry of the history
    stays in it, keeps its crew, and its messages are only extended. *)
Theorem X1_history_only_grows
    {World Crew : Type} (ext : externals World Crew)
    (input : AgentInput) (st : state World Crew) (t : string) (ctx : thread_context Crew) :
  conversation_history st !! t = Some ctx ->
  exists ctx',
    conversation_history (snd (call ext input st)) !! t = Some ctx' /\
    ctx_crew ctx' = ctx_crew ctx /\
    exists more, ctx_messages ctx' = ctx_messages ctx ++ more.
Proof. intros H. destruct (call_grows ext input st t ctx H) as [ctx' [H' [Hc Hm]]]. eauto. Qed.

Lemma X1_witness :
  exists ctx',
    conversation_history
      (snd (call Mock.failing_crew (Mock.turn "t" "again")
         (snd (call Mock.echo_crew (Mock.turn "t" "hello") Mock.fresh)))) !! "t" = Some ctx' /\
    ctx_crew ctx' = tt /\
    exists more, ctx_messages ctx' = [user_msg "hello"] ++ more.
Proof.
  exact (X1_history_only_grows Mock.failing_crew (Mock.turn "t" "again")
           (snd (call Mock.echo_crew (Mock.turn "t" "hello") Mock.fresh)) "t"
           {| ctx_crew := tt; ctx_messages := [user_msg "hello"];
              ctx_context := {[ "customer_id" := "CUST001"; "last_response" := "Hello CUST001" ]} |}
           eq_refl).
Defined.

(** X2: on a thread that is already stored, a call does not use the crew
    constructor: with any other constructor the reply and the state are the
    same. *)
Theorem X2_known_thread_needs_no_constructor
    {World Crew : Type} (ext : externals World Crew)
    (other : World -> result Crew * World)
    (input : AgentInput) (st : state World Crew) (ctx : thread_context Crew) :
  conversation_history st !! thread_id input = Some ctx ->
  call {| crew_class := other; handle_inquiry := handle_inquiry ext;
          get_crew_info := get_crew_info ext |} input st
  = call ext input st.
Proof.
  intros H.
  set (ext' := {| crew_class := other; handle_inquiry := handle_inquiry ext;
                  get_crew_info := get_crew_info ext |}).
  pose proof (get_or_create_known ext (thread_id input) st ctx H) as Hc.
  pose proof (get_or_create_known ext' (thread_id input) st ctx H) as Hc'.
  destruct (last_new_user_message_str input) as [u|e|e] eqn:Hu.
  - destruct (judgment_request input) eqn:Hj.
    + now rewrite (call_judgment ext input st st _ u ctx Hj Hc Hu H),
        (call_judgment ext' input st st _ u ctx Hj Hc' Hu H).
    + now rewrite (call_turn ext input st st _ u Hj Hc Hu),
        (call_turn ext' input st st _ u Hj Hc' Hu).
  - now rewrite (call_no_user_message ext input st st _ e Hc Hu),
      (call_no_user_message ext' input st st _ e Hc' Hu).
  - now rewrite (call_user_message_passes ext input st st _ e Hc Hu),
      (call_user_message_passes ext' input st st _ e Hc' Hu).
Qed.

Lemma X2_witness :
  call {| crew_class := crew_class Mock.unbuildable_crew;
          handle_inquiry := handle_inquiry Mock.echo_crew;
          get_crew_info := get_crew_info Mock.echo_crew |}
    (Mock.turn "t" "again") (snd (call Mock.echo_crew (Mock.turn "t" "hello") Mock.fresh))
  = call Mock.echo_crew (Mock.turn "t" "again")
      (snd (call Mock.echo_crew (Mock.turn "t" "hello") Mock.fresh)).
Proof.
  exact (X2_known_thread_needs_no_constructor Mock.echo_crew
           (crew_class Mock.unbuildable_crew) (Mock.turn "t" "again")
           (snd (call Mock.echo_crew (Mock.turn "t" "hello") Mock.fresh))
           {| ctx_crew := tt; ctx_messages := [user_msg "hello"];
              ctx_context := {[ "customer_id" := "CUST001"; "last_response" := "Hello CUST001" ]} |}
           eq_refl).
Defined.



(** X4: a judgment request that follows an answered turn on the same thread
    reports that turn: its customer id is the one extracted from the turn's
    messages (not from its own) and its last response is the cleaned reply
    of the turn. *)
Theorem X4_judgment_reports_last_turn
    {World Crew : Type} (ext : externals World Crew)
    (turn judge : AgentInput) (st st0 : state World Crew) (crew : Crew)
    (user_message response asked : string) (w w' : World) (crew_info : json) :
  judgment_request turn = false ->
  judgment_request judge = true ->
  thread_id judge = thread_id turn ->
  _get_or_create_crew ext (thread_id turn) st = (Ok crew, st0) ->
  last_new_user_message_str turn = Ok user_message ->
  handle_inquiry ext crew user_message (_extract_customer_id (messages turn)) (world st0)
  = (Ok response, w) ->
  last_new_user_message_str judge = Ok asked ->
  get_crew_info ext crew w = (Ok crew_info, w') ->
  fst (call ext turn st) = Ok (_format_crew_response response) /\
  fst (call ext judge (snd (call ext turn st)))
  = Ok (dumps (JObj
      [("conversation_summary", JStr (_format_conversation_context (messages judge)));
       ("total_messages", JInt (Z.of_nat (length (messages judge))));
       ("customer_id", JStr (_extract_customer_id (messages turn)));
       ("last_response", JStr (_format_crew_response response));
       ("crew_info", crew_info)])).
Proof.
  intros Hj1 Hj2 Ht Hc Hu Hr Hu2 Hinfo.
  destruct (get_or_create_stored ext _ _ _ _ Hc) as [ctx0 [H0 [Hcrew _]]].
  destruct (call_turn_entry ext turn st st0 crew user_message ctx0 response w
              Hj1 Hc Hu H0 Hr) as [H1 Hw].
  split.
  - now rewrite (call_turn ext turn st st0 crew user_message Hj1 Hc Hu), Hr.
  - set (st1 := snd (call ext turn st)) in *. rewrite <- Ht in H1.
    pose proof (get_or_create_known ext (thread_id judge) st1 _ H1) as Hc2.
    rewrite (call_judgment ext judge st1 st1 _ asked _ Hj2 Hc2 Hu2 H1).
    unfold answered. cbn [set_context extend_messages ctx_crew].
    rewrite Hcrew, Hw, Hinfo. cbn [fst].
    unfold summary, set_context, extend_messages. cbn [ctx_context].
    rewrite lookup_insert_eq, lookup_insert_ne, lookup_insert_eq by discriminate.
    reflexivity.
Qed.

Lemma X4_witness :
  fst (call Mock.echo_crew (Mock.judgment "t" "how did it go?")
         (snd (call Mock.echo_crew (Mock.turn "t" "my cust id is 4477") Mock.fresh)))
  = Ok (dumps (JObj
      [("conversation_summary", JStr "Customer: how did it go?");
       ("total_messages", JInt 1);
       ("customer_id", JStr "id");
       ("last_response", JStr "Hello id");
       ("crew_info", JObj [("agents", JList []); ("process", JStr "hierarchical");
                           ("tools", JList [JStr "knowledge_base_search"])])])).
Proof.
  exact (proj2 (X4_judgment_reports_last_turn Mock.echo_crew
           (Mock.turn "t" "my cust id is 4477") (Mock.judgment "t" "how did it go?")
           Mock.fresh (set_history (<[ "t" := fresh_thread tt ]> ∅) (set_world 1%nat Mock.fresh))
           tt "my cust id is 4477"
           ("Agent: working" +:+ String newline "Hello id") "how did it go?" 1%nat 1%nat _
           eq_refl eq_refl eq_refl eq_refl eq_refl eq_refl eq_refl eq_refl)).
Defined.

(** X5: a judgment request is not a pure read. On a stored thread, when its
    latest user message can be read, it appends its new messages to the
    stored ones, whether or not the crew information is then obtained; it
    leaves the context and every other thread as they were. *)
Theorem X5_judgment_stores_its_messages
    {World Crew : Type} (ext : externals World Crew)
    (input : AgentInput) (st : state World Crew) (ctx : thread_context Crew)
    (user_message : string) :
  judgment_request input = true ->
  conversation_history st !! thread_id input = Some ctx ->
  last_new_user_message_str input = Ok user_message ->
  conversation_history (snd (call ext input st))
  = <[thread_id input :=
        {| ctx_crew := ctx_crew ctx;
           ctx_messages := ctx_messages ctx ++ new_messages input;
           ctx_context := ctx_context ctx |}]> (conversation_history st).
Proof.
  intros Hj H Hu.
  pose proof (get_or_create_known ext (thread_id input) st ctx H) as Hc.
  rewrite (call_judgment ext input st st _ user_message ctx Hj Hc Hu H).
  assert (Hs : conversation_history (stored input st)
               = <[thread_id input := extend_messages (new_messages input) ctx]>
                   (conversation_history st)).
  { unfold stored. simpl. apply map_eq. intros k.
    destruct (decide (thread_id input = k)) as [<- | Hne].
    - now rewrite lookup_alter_eq, lookup_insert_eq, H.
    - now rewrite lookup_alter_ne, lookup_insert_ne. }
  destruct (get_crew_info ext _ _) as [[info|e|e] w]; exact Hs.
Qed.

Lemma X5_witness :
  ctx_messages <$>
    (conversation_history
       (snd (call Mock.secretive_crew (Mock.judgment "t" "how did it go?")
          (snd (call Mock.echo_crew (Mock.turn "t" "hello") Mock.fresh)))) !! "t")
  = Some [user_msg "hello"; user_msg "how did it go?"].
Proof.
  rewrite (X5_judgment_stores_its_messages Mock.secretive_crew
             (Mock.judgment "t" "how did it go?")
             (snd (call Mock.echo_crew (Mock.turn "t" "hello") Mock.fresh))
             {| ctx_crew := tt; ctx_messages := [user_msg "hello"];
                ctx_context := {[ "customer_id" := "CUST001"; "last_response" := "Hello CUST001" ]} |}
             "how did it go?" eq_refl eq_refl eq_refl).
  rewrite lookup_insert_eq. reflexivity.
Defined.

(** *** The reply cleaner and the customer id *)

(** X6: when the cleaner keeps at least one line, the lines of its reply
    are exactly the kept lines: each is a line of the response with the
    white space at its ends removed, is not empty and carries no
    execution-log marker. *)
Theorem X6_cleaned_reply_has_no_log_line (response : string) :
  clean_lines (split response nl) <> [] ->
  split (_format_crew_response response) nl = clean_lines (split response nl) /\
  Forall (fun line =>
            is_log_line line = false /\ line <> "" /\ strip line = line /\
            exists source, In source (split response nl) /\ line = strip source)
    (split (_format_crew_response response) nl).
Proof.
  intros H. rewrite (format_lines response H). split; [reflexivity|].
  apply List.Forall_forall. intros line Hin.
  destruct (clean_lines_In _ _ Hin) as [source [Hs [Hl [Hr ->]]]].
  apply response_line_iff in Hr as [Hr _].
  repeat split; auto using log_line_strip, strip_idem. now exists source.
Qed.

Lemma X6_witness :
  split (_format_crew_response Mock.logged) nl = ["Hello Sir"; "Restart the app"].
Proof.
  rewrite (proj1 (X6_cleaned_reply_has_no_log_line Mock.logged
                    ltac:(vm_compute; discriminate))).
  vm_compute. reflexivity.
Defined.

(** X7: the cleaner never returns a reply longer than the response it was
    given. *)
Theorem X7_cleaner_never_lengthens (response : string) :
  (String.length (_format_crew_response response) <= String.length response)%nat.
Proof. apply format_no_longer. Qed.

(** X8: the customer id extracted from any message list is either the
    default CUST001 or a token of one of the messages: not empty, without
    white space, and in lower case. *)
Theorem X8_extracted_id_is_a_lowercase_token (messages : list message) :
  _extract_customer_id messages = "CUST001" \/
  (exists msg, In msg messages /\ In (_extract_customer_id messages) (tokens msg)) /\
  _extract_customer_id messages <> "" /\
  spaceless (_extract_customer_id messages) = true /\
  lower (_extract_customer_id messages) = _extract_customer_id messages.
Proof.
  destruct (extract_default_or_token messages) as [H | [msg [Hm Hin]]]; [now left|].
  right. destruct (token_shape msg _ Hin) as [Hl [Hn Hs]].
  split; [now exists msg|]. auto.
Qed.

(** *** The individual agent adapter *)

(** X10: when the crew has no agent with the adapter's role, the first call
    reports it; the crew stays stored, so every later call skips the
    initialization, leaves the adapter as it is and does not report the
    missing role again: it answers with the canned reply when the latest
    user message can be read, as if the agent had been found, with the
    error text of the harness when reading it raises an [Exception], and
    lets any other raise through. *)
Theorem X10_missing_role_is_reported_once
    {World Crew Agent : Type} (ext : agent_externals World Crew Agent)
    (agent_role : string) (first later : AgentInput)
    (st : agent_state World Crew Agent) (crew : Crew) (w : World) :
  self_crew st = None ->
  self_agent st = None ->
  agent_crew_class ext (agent_world st) = (Ok crew, w) ->
  Forall (fun agent => role_of ext agent <> agent_role) (crew_agents ext crew) ->
  fst (agent_call ext agent_role first st) = Ok (agent_error (role_not_found agent_role)) /\
  agent_call ext agent_role later (snd (agent_call ext agent_role first st))
  = (match last_new_user_message_str later with
     | Ok user_message => Ok (_simulate_agent_response agent_role user_message)
     | Raise e => Ok (agent_error e)
     | RaiseBase e => RaiseBase e
     end,
     snd (agent_call ext agent_role first st)).
Proof.
  intros Hc Ha Hk Hr.
  assert (H1 : agent_call ext agent_role first st
               = (Ok (agent_error (role_not_found agent_role)),
                  {| self_crew := Some crew; self_agent := None; agent_world := w |})).
  { unfold agent_call, agent_call_body.
    now rewrite (initialize_role_missing ext agent_role st crew w Hc Ha Hk Hr). }
  rewrite H1. cbn [fst snd]. split; [reflexivity|].
  unfold agent_call, agent_call_body.
  rewrite (initialized_stays ext agent_role
             {| self_crew := Some crew; self_agent := None; agent_world := w |} crew eq_refl).
  now destruct (last_new_user_message_str later).
Qed.

Lemma X10_witness :
  fst (agent_call Mock.four_agents "Quality Auditor" (Mock.turn "t" "hello") Mock.fresh_agent)
  = Ok "Error in individual agent adapter: Agent with role 'Quality Auditor' not found in crew" /\
  fst (agent_call Mock.four_agents "Quality Auditor" (Mock.turn "t" "again")
         (snd (agent_call Mock.four_agents "Quality Auditor" (Mock.turn "t" "hello")
                 Mock.fresh_agent)))
  = Ok "As a Quality Auditor, I'll help you with: 'again'" /\
  fst (agent_call Mock.four_agents "Quality Auditor" (Mock.no_user_message "t" "hi" false)
         (snd (agent_call Mock.four_agents "Quality Auditor" (Mock.turn "t" "hello")
                 Mock.fresh_agent)))
  = Ok "Error in individual agent adapter: No new user messages found".
Proof.
  assert (H : Forall (fun agent => role_of Mock.four_agents agent <> "Quality Auditor")
                (crew_agents Mock.four_agents tt)).
  { repeat constructor; discriminate. }
  destruct (X10_missing_role_is_reported_once Mock.four_agents "Quality Auditor"
              (Mock.turn "t" "hello") (Mock.turn "t" "again") Mock.fresh_agent tt 1%nat
              eq_refl eq_refl eq_refl H) as [H1 H2].
  destruct (X10_missing_role_is_reported_once Mock.four_agents "Quality Auditor"
              (Mock.turn "t" "hello") (Mock.no_user_message "t" "hi" false)
              Mock.fresh_agent tt 1%nat eq_refl eq_refl eq_refl H) as [_ H3].
  split; [rewrite H1; reflexivity|]. split; [rewrite H2; reflexivity|rewrite H3; reflexivity].
Defined.

(** X11: once the adapter holds a crew, a call whose latest user message
    can be read changes nothing in the adapter and answers with the canned
    reply of its role, which quotes the user's message. *)
Theorem X11_agent_reply_quotes_the_message
    {World Crew Agent : Type} (ext : agent_externals World Crew Agent)
    (agent_role : string) (input : AgentInput)
    (st : agent_state World Crew Agent) (crew : Crew) (user_message : string) :
  self_crew st = Some crew ->
  last_new_user_message_str input = Ok user_message ->
  agent_call ext agent_role input st = (Ok (_simulate_agent_response agent_role user_message), st) /\
  contains (_simulate_agent_response agent_role user_message)
    ("'" +:+ user_message +:+ "'") = true.
Proof.
  intros Hc Hu. split.
  - unfold agent_call, agent_call_body.
    rewrite (initialized_stays ext agent_role st crew Hc). now rewrite Hu.
  - apply contains_iff. apply simulate_quotes.
Qed.

Lemma X11_witness :
  agent_call Mock.four_agents "Billing Support Specialist" (Mock.turn "t" "I was charged twice")
    {| self_crew := Some tt; self_agent := Some "Billing Support Specialist";
       agent_world := 1%nat |}
  = (Ok ("I'll assist you with this billing matter: 'I was charged twice'. "
         +:+ "Let me review your account and resolve this."),
     {| self_crew := Some tt; self_agent := Some "Billing Support Specialist";
        agent_world := 1%nat |}).
Proof.
  rewrite (proj1 (X11_agent_reply_quotes_the_message Mock.four_agents
                    "Billing Support Specialist" (Mock.turn "t" "I was charged twice")
                    {| self_crew := Some tt; self_agent := Some "Billing Support Specialist";
                       agent_world := 1%nat |} tt "I was charged twice" eq_refl eq_refl)).
  reflexivity.
Defined.

(** *** The judges *)

(** X12: every keyword sub-score of the quality and technical judges lies
    between 3.0 and 9.5 whatever the transcript: no transcript reaches the
    caps at 1.0 and 10.0 written in the scorers. *)
Theorem X12_keyword_scores_never_reach_the_caps (conversation : string) :
  within 3 9.5 (_evaluate_empathy conversation) = true /\
  within 3 9.5 (_evaluate_professionalism conversation) = true /\
  within 3 9.5 (_evaluate_listening conversation) = true /\
  within 3 9.5 (_evaluate_problem_solving conversation) = true /\
  within 3 9.5 (_evaluate_customer_focus conversation) = true /\
  within 3 9.5 (_evaluate_technical_accuracy conversation) = true /\
  within 3 9.5 (_evaluate_solution_quality conversation) = true /\
  within 3 9.5 (_evaluate_guidance_clarity conversation) = true.
Proof.
  repeat split.
  - unfold _evaluate_empathy. capped_sum_within empathy_indicators.
  - rewrite professionalism_unclamped.
    apply (forallb_In (within 3 9.5) professionalism_sums);
      [vm_compute; reflexivity|apply professionalism_sum_in].
  - unfold _evaluate_listening. capped_sum_within listening_indicators.
  - unfold _evaluate_problem_solving. capped_sum_within problem_solving_indicators.
  - unfold _evaluate_customer_focus. capped_sum_within customer_focus_indicators.
  - rewrite technical_unclamped.
    apply (forallb_In (within 3 9.5) technical_sums);
      [vm_compute; reflexivity|apply technical_sum_in].
  - unfold _evaluate_solution_quality. capped_sum_within solution_indicators.
  - unfold _evaluate_guidance_clarity. capped_sum_within clarity_indicators.
Qed.

(** X13: the overall quality score (the mean of empathy, professionalism and
    communication, before rounding) lies between 4.0 and 8.75, and the
    overall technical score between 5.5 and 8.5, whatever the transcript. *)
Theorem X13_overall_scores_are_bounded (conversation : string) :
  within 4 8.75 (CustomerServiceQualityJudge.overall_score conversation) = true /\
  within 5.5 8.5 (TechnicalAccuracyJudge.overall_technical_score conversation) = true.
Proof. split; [apply overall_score_bounds|apply overall_technical_bounds]. Qed.

(** X14: the timing verdict is "No escalation occurred" exactly when the
    word manager does not occur in the transcript in lower case, as written:
    a transcript that only says Manager has no escalation for the timing,
    although the need assessment lists the trigger. *)
Theorem X14_timing_wants_lower_case_manager (conversation : string) :
  (_evaluate_escalation_timing conversation = "No escalation occurred"
   <-> contains conversation "manager" = false) /\
  (contains (lower conversation) "manager" = true ->
   In "manager" (triggers_identified (_assess_escalation_need conversation))).
Proof.
  split; [apply timing_none_iff|].
  intros H. cbn [_assess_escalation_need triggers_identified escalation_triggers List.filter].
  rewrite H. now left.
Qed.

Lemma X14_witness :
  _evaluate_escalation_timing "AGENT: I will get the Manager" = "No escalation occurred" /\
  In "manager" (triggers_identified (_assess_escalation_need "AGENT: I will get the Manager")).
Proof.
  split.
  - apply (proj1 (X14_timing_wants_lower_case_manager "AGENT: I will get the Manager")).
    reflexivity.
  - apply (proj2 (X14_timing_wants_lower_case_manager "AGENT: I will get the Manager")).
    reflexivity.
Defined.

(** X15: the solution is judged complete exactly when the word step occurs
    at least twice in the transcript, in lower case and without overlap. *)
Theorem X15_complete_needs_two_steps (conversation : string) :
  _evaluate_solution_completeness conversation = "Complete - Multi-step solution provided"
  <-> (2 <= count conversation "step")%nat.
Proof. apply completeness_iff. Qed.

Lemma X15_witness :
  _evaluate_solution_completeness "first step: log in; second step: retry"
  = "Complete - Multi-step solution provided" /\
  _evaluate_solution_completeness "Step 1: log in. Step 2: try again"
  <> "Complete - Multi-step solution provided".
Proof.
  split.
  - apply (proj2 (X15_complete_needs_two_steps "first step: log in; second step: retry")).
    vm_compute. lia.
  - intros H.
    apply (proj1 (X15_complete_needs_two_steps "Step 1: log in. Step 2: try again")) in H.
    vm_compute in H. lia.
Defined.

(** X16: on the transcript the escalation judge itself builds from messages
    of the roles user, assistant and system whose contents do not contain
    the marker AGENT:, the timing verdict is never "Appropriate timing" nor
    "Too late": it is the early verdict when the word manager occurs, and
    "No escalation occurred" otherwise. *)
Theorem X16_own_transcript_is_never_on_time (messages : list message) :
  Forall (fun msg => standard_role msg /\ contains (format_content msg) "AGENT:" = false)
    messages ->
  _evaluate_escalation_timing (EscalationAppropriatenessJudge._extract_conversation messages)
  = if contains (EscalationAppropriatenessJudge._extract_conversation messages) "manager"
    then "Too early - should attempt resolution first"
    else "No escalation occurred".
Proof.
  intros H. pose proof (own_transcript_has_no_marker messages H) as Hm.
  destruct (contains (EscalationAppropriatenessJudge._extract_conversation messages) "manager")
    eqn:E.
  - destruct (TimingFacts.timing_without_marker _ Hm) as [Ht | Ht]; [exact Ht|].
    apply timing_none_iff in Ht. congruence.
  - now apply timing_none_iff.
Qed.

Lemma X16_witness :
  _evaluate_escalation_timing
    (EscalationAppropriatenessJudge._extract_conversation (Mock.escalation 6))
  = "Too early - should attempt resolution first".
Proof.
  rewrite (X16_own_transcript_is_never_on_time (Mock.escalation 6)).
  - vm_compute. reflexivity.
  - apply (Forall_forallb _ (fun msg =>
        (String.eqb (get_role msg) "user" || String.eqb (get_role msg) "assistant")
        && negb (contains (format_content msg) "AGENT:"))%bool).
    + intros msg Hb. apply andb_true_iff in Hb as [Hr Hc].
      apply negb_true_iff in Hc. split; [|exact Hc].
      apply orb_true_iff in Hr as [Hr | Hr]; apply String.eqb_eq in Hr;
        [now left|right; now left].
    + vm_compute. reflexivity.
Defined.

(** *** The tools *)

(** X17: the knowledge base answers with its fallback text exactly when
    none of its twelve keywords (the three categories and their nine keys)
    occurs in the lower-cased query. *)
Theorem X17_knowledge_base_fallback (query : string) :
  KnowledgeBaseTool._run query = KnowledgeBaseTool.not_found <->
  Forall (fun keyword => contains (lower query) keyword = false)
    ["billing"; "refund"; "payment"; "subscription";
     "technical"; "login"; "performance"; "integration";
     "general"; "hours"; "contact"; "account"].
Proof. apply run_not_found_iff. Qed.

(** X18: a query that mentions billing always gets the refund entry, the
    first of its category; the payment and subscription entries are given
    only to queries that mention neither billing nor refund. *)
Theorem X18_billing_queries_get_the_refund_entry (query : string) :
  (contains (lower query) "billing" = true -> KnowledgeBaseTool._run query = refund_answer) /\
  (KnowledgeBaseTool._run query = payment_answer \/
   KnowledgeBaseTool._run query = subscription_answer ->
   contains (lower query) "billing" = false /\ contains (lower query) "refund" = false).
Proof. split; [apply billing_always_refund|apply other_billing_answers]. Qed.

Lemma X18_witness :
  KnowledgeBaseTool._run "A billing question: my payment failed" = refund_answer /\
  contains (lower "my payment failed") "billing" = false.
Proof.
  split.
  - apply (proj1 (X18_billing_queries_get_the_refund_entry
                    "A billing question: my payment failed")).
    vm_compute. reflexivity.
  - apply (proj2 (X18_billing_queries_get_the_refund_entry "my payment failed")).
    left. vm_compute. reflexivity.
Defined.

(** X19: a customer id that the adapter extracts from messages is never
    found by the customer data tool: unless it is the default CUST001, the
    lookup answers that the customer is not in the database, since the ids
    of the database are in upper case and an extracted id is in lower case. *)
Theorem X19_extracted_ids_are_not_in_the_database (messages : list message) :
  _extract_customer_id messages = "CUST001" \/
  CustomerDataTool._run (_extract_customer_id messages)
  = "Customer " +:+ _extract_customer_id messages +:+ " not found in database.".
Proof. apply extracted_id_unknown. Qed.
